(** * The supplement information tool (app.py): model and properties

    The program is one Streamlit script.  Its pure parts (response
    parsing, counting, percentages, chart construction) are embedded as
    functions; the parts that talk to the language-model API, to the
    session state and to the page are embedded in a small state and
    exception monad over an explicit [World]. *)

From Stdlib Require Import String Ascii.
From Stdlib Require Import ZArith NArith List Bool Lia.
From Stdlib Require Import Permutation Sorted.
From Stdlib Require Import Floats.SpecFloat.
Import ListNotations.

Local Open Scope Z_scope.

(** ** Python strings

    A Python [str] is a sequence of Unicode code points. *)

Definition pystr := list N.

(** Source literals are ASCII; [py] reads one into a [pystr]. *)
Definition py (s : string) : pystr :=
  map N_of_ascii (list_ascii_of_string s).

Definition pystr_eq_dec : forall a b : pystr, {a = b} + {a <> b} :=
  list_eq_dec N.eq_dec.

(** [str.isspace] on one code point: the code points Python's
    [str.strip()] removes. *)
Definition is_space (c : N) : bool :=
  (((9 <=? c) && (c <=? 13)) || ((28 <=? c) && (c <=? 32))
   || (c =? 133) || (c =? 160) || (c =? 5760)
   || ((8192 <=? c) && (c <=? 8202))
   || (c =? 8232) || (c =? 8233) || (c =? 8239) || (c =? 8287)
   || (c =? 12288))%N.

Fixpoint lstrip (s : pystr) : pystr :=
  match s with
  | [] => []
  | c :: s' => if is_space c then lstrip s' else s
  end.

Definition rstrip (s : pystr) : pystr := rev (lstrip (rev s)).

(** [s.strip()] *)
Definition strip (s : pystr) : pystr := rstrip (lstrip s).

(** [s.split(sep)] for a one-character separator: one piece more than
    there are separators, empty pieces kept. *)
Fixpoint split (sep : N) (s : pystr) : list pystr :=
  match s with
  | [] => [[]]
  | c :: s' =>
      if (c =? sep)%N then [] :: split sep s'
      else match split sep s' with
           | [] => [[c]]
           | piece :: pieces => (c :: piece) :: pieces
           end
  end.

(** [sep.join(pieces)] *)
Fixpoint join (sep : N) (pieces : list pystr) : pystr :=
  match pieces with
  | [] => []
  | [p] => p
  | p :: rest => p ++ sep :: join sep rest
  end.

Definition comma : N := 44.

(** A string is truthy when it is not empty. *)
Definition truthy (s : pystr) : bool :=
  match s with [] => false | _ => true end.

(** [str(n)] for an int. *)
Fixpoint uint_digits (d : Decimal.uint) : pystr :=
  match d with
  | Decimal.Nil => []
  | Decimal.D0 d => 48%N :: uint_digits d
  | Decimal.D1 d => 49%N :: uint_digits d
  | Decimal.D2 d => 50%N :: uint_digits d
  | Decimal.D3 d => 51%N :: uint_digits d
  | Decimal.D4 d => 52%N :: uint_digits d
  | Decimal.D5 d => 53%N :: uint_digits d
  | Decimal.D6 d => 54%N :: uint_digits d
  | Decimal.D7 d => 55%N :: uint_digits d
  | Decimal.D8 d => 56%N :: uint_digits d
  | Decimal.D9 d => 57%N :: uint_digits d
  end.

Definition str_int (z : Z) : pystr :=
  match z with
  | Z0 => py "0"
  | Zpos p => uint_digits (Pos.to_uint p)
  | Zneg p => py "-" ++ uint_digits (Pos.to_uint p)
  end.

(** ** Exceptions and results *)

Inductive ExcClass :=
| ValueError
| ZeroDivisionError
| OverflowError
| AttributeError
| OtherError (name : pystr).

(** An exception instance: its class and [str(e)].  Every class here
    derives from [Exception], as everything the API client and the
    parser raise does. *)
Record PyExc := mkExc { exc_class : ExcClass; exc_str : pystr }.

Inductive Result (A : Type) :=
| Ok (a : A)
| Raise (e : PyExc).
Arguments Ok {A} a.
Arguments Raise {A} e.

Definition rbind {A B} (r : Result A) (f : A -> Result B) : Result B :=
  match r with
  | Ok a => f a
  | Raise e => Raise e
  end.

(** ** parse_supplement_list *)

(** An element of a response list, as the parser looks at it.  It has
    a [text] attribute, which is a [str] (as in the client's text
    block) or an object of another type with no [split] method (None,
    a number, a list); or it has none and [str(x)] is taken, which
    returns a [str] or raises. *)
Inductive ContentItem :=
| WithText (text : pystr)
| NoText (as_str : pystr)
| WithOtherText (type_name : pystr)
| StrRaises (e : PyExc).

(** The values the parser tells apart.  [PyOther t] is any object that
    is neither a [list] nor a [str]; [t] is how [type(x)] prints, e.g.
    [<class 'NoneType'>] for [None]. *)
Inductive PyValue :=
| PyStr (s : pystr)
| PyList (items : list ContentItem)
| PyOther (type_repr : pystr).


Definition type_repr_of (v : PyValue) : pystr :=
  match v with
  | PyStr _ => py "<class 'str'>"
  | PyList _ => py "<class 'list'>"
  | PyOther t => t
  end.

(** What [x.split(",")] raises on an object of type [type_name] that
    has no such method. *)
Definition no_split (type_name : pystr) : PyExc :=
  mkExc AttributeError
    (py "'" ++ type_name ++ py "' object has no attribute 'split'").

Definition parse_supplement_list (response_content : PyValue)
  : Result (list pystr) :=
  let text_content :=
    match response_content with
    | PyList (WithText t :: _) => Ok t
    | PyList (NoText s :: _) => Ok s
    | PyList (WithOtherText type_name :: _) => Raise (no_split type_name)
    | PyList (StrRaises e :: _) => Raise e
    | PyStr s => Ok s
    | _ => Raise (mkExc ValueError
                    (py "Unexpected response type: "
                     ++ type_repr_of response_content))
    end in
  rbind text_content (fun text =>
    Ok (map strip
          (filter (fun item => truthy (strip item)) (split comma text)))).

(** ** Python floats

    A Python [float] is an IEEE-754 binary64 number: the Standard
    Library's [spec_float] at precision 53 and maximal exponent 1024,
    with its correctly rounded operations. *)

Module Float64.

Definition prec : Z := 53.
Definition emax : Z := 1024.

Definition float := spec_float.

Definition mul : float -> float -> float := SFmul prec emax.
Definition add : float -> float -> float := SFadd prec emax.

Definition overflow (what : string) : PyExc := mkExc OverflowError (py what).

(** The double nearest to the quotient [a / b] of two integers, [b]
    not zero.  [SFdiv] shifts the dividend by the digit counts of the
    two mantissas, so the quotient of the integers themselves is
    rounded once. *)
Definition nearest_quotient (a b : Z) : float :=
  match a with
  | Z0 => S754_zero (b <? 0)
  | _ => SFdiv prec emax
           (S754_finite (a <? 0) (Z.to_pos (Z.abs a)) 0)
           (S754_finite (b <? 0) (Z.to_pos (Z.abs b)) 0)
  end.

(** [a / b] on ints (true division). *)
Definition int_true_divide (a b : Z) : Result float :=
  if b =? 0 then Raise (mkExc ZeroDivisionError (py "division by zero"))
  else match nearest_quotient a b with
       | S754_infinity _ =>
           Raise (overflow "integer division result too large for a float")
       | q => Ok q
       end.

(** [float(n)] for an int, as done for the int operand of a mixed
    operation. *)
Definition of_int (n : Z) : Result float :=
  match binary_normalize prec emax n 0 false with
  | S754_infinity _ => Raise (overflow "int too large to convert to float")
  | x => Ok x
  end.

(** A decimal literal [n / 10^k] of the source: the double nearest to
    it. *)
Definition literal (n : Z) (k : Z) : float := nearest_quotient n (10 ^ k).

(** The integer nearest to [n / d] ([d] positive), ties to the even
    one. *)
Definition round_half_even_div (n d : Z) : Z :=
  let q := n / d in
  let r := n mod d in
  match 2 * r ?= d with
  | Lt => q
  | Gt => q + 1
  | Eq => if Z.even q then q else q + 1
  end.

(** The exact value of a finite float scaled by [k], rounded to the
    nearest integer, ties to even. *)
Definition round_scaled (k : Z) (s : bool) (m : positive) (e : Z) : Z :=
  let n := cond_Zopp s (Zpos m) * k in
  if 0 <=? e then n * 2 ^ e else round_half_even_div n (2 ^ (- e)).

(** [round(x)]: an int, the nearest one, ties to even. *)
Definition round (x : float) : Result Z :=
  match x with
  | S754_zero _ => Ok 0
  | S754_finite s m e => Ok (round_scaled 1 s m e)
  | S754_infinity _ =>
      Raise (overflow "cannot convert float infinity to integer")
  | S754_nan =>
      Raise (mkExc ValueError (py "cannot convert float NaN to integer"))
  end.

(** [round(x, 1)]: the double nearest to [x] rounded to one decimal
    (the decimal is the correctly rounded one, ties to even). *)
Definition round1 (x : float) : float :=
  match x with
  | S754_finite s m e =>
      match round_scaled 10 s m e with
      | Z0 => S754_zero s
      | tenths => nearest_quotient tenths 10
      end
  | _ => x
  end.

(** *** [str(x)] for a float

    The shortest decimal that reads back as [x] (the nearest one when
    there are several), printed in fixed notation when its decimal
    point falls in positions -3 to 16 and in exponent notation
    otherwise. *)

(** [n / d] divided by [10^k], as a fraction. *)
Definition scale10 (nd : Z * Z) (k : Z) : Z * Z :=
  let '(n, d) := nd in
  if 0 <=? k then (n, d * 10 ^ k) else (n * 10 ^ (- k), d).

(** The greatest [k' <= k] with [10^k' <= n / d]. *)
Fixpoint floor_log10 (fuel : nat) (k : Z) (nd : Z * Z) : Z :=
  match fuel with
  | O => k
  | S fuel' =>
      let '(n, d) := scale10 nd k in
      if d <=? n then k else floor_log10 fuel' (k - 1) nd
  end.

(** The double a decimal numeral [c * 10^k] reads as. *)
Definition read_decimal (c k : Z) : float :=
  if 0 <=? k then nearest_quotient (c * 10 ^ k) 1
  else nearest_quotient c (10 ^ (- k)).

Definition same_float (x y : float) : bool :=
  match x, y with
  | S754_finite sx mx ex, S754_finite sy my ey =>
      Bool.eqb sx sy && Pos.eqb mx my && Z.eqb ex ey
  | _, _ => false
  end.

(** The [p]-digit decimals next to [x = n/d]: the nearest one first. *)
Definition neighbours (nd : Z * Z) (k10 : Z) (p : Z) : Z * Z * Z :=
  let scale := k10 - p + 1 in
  let '(n, d) := scale10 nd scale in
  let near := round_half_even_div n d in
  let lo := n / d in
  (near, (if near =? lo then lo + 1 else lo), scale).

(** Search the precisions [p, p+1, ...]. *)
Fixpoint shortest (fuel : nat) (x : float) (nd : Z * Z) (k10 p : Z)
  : Z * Z :=
  let '(near, other, scale) := neighbours nd k10 p in
  match fuel with
  | O => (near, scale)
  | S fuel' =>
      if same_float (read_decimal near scale) x then (near, scale)
      else if same_float (read_decimal other scale) x then (other, scale)
      else shortest fuel' x nd k10 (p + 1)
  end.

Fixpoint drop_zeros (fuel : nat) (c k : Z) : Z * Z :=
  match fuel with
  | O => (c, k)
  | S fuel' =>
      if (c mod 10 =? 0) && negb (c =? 0) then drop_zeros fuel' (c / 10) (k + 1)
      else (c, k)
  end.

Definition zeros (n : Z) : pystr := repeat 48%N (Z.to_nat n).

Definition two_digits (n : Z) : pystr :=
  if n <? 10 then py "0" ++ str_int n else str_int n.

(** The digits [ds] with the decimal point after the first [decpt] of
    them. *)
Definition format_repr (ds : pystr) (decpt : Z) : pystr :=
  let nd := Z.of_nat (length ds) in
  if (-4 <? decpt) && (decpt <=? 16) then
    if decpt <=? 0 then py "0." ++ zeros (- decpt) ++ ds
    else if nd <=? decpt then ds ++ zeros (decpt - nd) ++ py ".0"
    else firstn (Z.to_nat decpt) ds ++ py "." ++ skipn (Z.to_nat decpt) ds
  else
    firstn 1 ds
    ++ (if 1 <? nd then py "." ++ skipn 1 ds else [])
    ++ py "e" ++ (if decpt - 1 <? 0 then py "-" else py "+")
    ++ two_digits (Z.abs (decpt - 1)).

Definition repr (x : float) : pystr :=
  match x with
  | S754_zero s => if s then py "-0.0" else py "0.0"
  | S754_infinity s => if s then py "-inf" else py "inf"
  | S754_nan => py "nan"
  | S754_finite s m e =>
      let nd := if 0 <=? e then (Zpos m * 2 ^ e, 1) else (Zpos m, 2 ^ (- e)) in
      let k10 := floor_log10 640 308 nd in
      let '(c, scale) := shortest 17 (S754_finite false m e) nd k10 1 in
      let '(c', scale') := drop_zeros 20 c scale in
      let ds := str_int c' in
      (if s then py "-" else [])
      ++ format_repr ds (Z.of_nat (length ds) + scale')
  end.

End Float64.

(** ** Counting: [collections.Counter]

    A [Counter] is a dict; a dict keeps its keys in the order of first
    insertion, and the chart below depends on that order for bars of
    equal length.  Hence an association list. *)

Definition counter := list (pystr * Z).

(** [c[k] = c.get(k, 0) + 1] *)
Fixpoint counter_incr (k : pystr) (c : counter) : counter :=
  match c with
  | [] => [(k, 1)]
  | (k', n) :: c' =>
      if pystr_eq_dec k k' then (k', n + 1) :: c'
      else (k', n) :: counter_incr k c'
  end.

(** [Counter(iterable)]: the elements are counted from left to right. *)
Definition Counter (l : list pystr) : counter :=
  fold_left (fun c k => counter_incr k c) l [].

(** [c[k]]: a key never inserted reads as zero. *)
Fixpoint counter_get (c : counter) (k : pystr) : Z :=
  match c with
  | [] => 0
  | (k', n) :: c' => if pystr_eq_dec k k' then n else counter_get c' k
  end.

Definition keys (c : counter) : list pystr := map fst c.
Definition values (c : counter) : list Z := map snd c.

(** ** create_supplement_chart *)

(** The bar trace and the layout of the figure, with the arguments the
    source passes. *)
Record Bar := mkBar {
  bar_x : list Z;
  bar_y : list pystr;
  bar_orientation : pystr;
  bar_text : list pystr;
  bar_textposition : pystr;
  bar_insidetextanchor : pystr;
  bar_textfont_color : pystr;
  bar_marker_color : pystr
}.

Record Layout := mkLayout {
  xaxis_title : pystr;
  yaxis_title : pystr;
  xaxis_range : Z * Z;
  xaxis_dtick : Z;
  height : Z;
  margin_lrtb : Z * Z * Z * Z;
  yaxis_autorange : pystr
}.

Record Figure := mkFigure { fig_data : Bar; fig_layout : Layout }.

(** A list comprehension whose element expression can raise. *)
Fixpoint map_result {A B} (f : A -> Result B) (l : list A)
  : Result (list B) :=
  match l with
  | [] => Ok []
  | a :: l' =>
      rbind (f a) (fun b => rbind (map_result f l') (fun bs => Ok (b :: bs)))
  end.

(** [round(count / total_queries * 100)] *)
Definition percentage (count total_queries : Z) : Result Z :=
  rbind (Float64.int_true_divide count total_queries) (fun q =>
  rbind (Float64.of_int 100) (fun hundred =>
  Float64.round (Float64.mul q hundred))).

(** [sorted(pairs, key=lambda x: x[1], reverse=True)]: the sort is
    stable, also when reversed, so pairs of equal percentage keep their
    order. *)
Fixpoint insert_desc (p : pystr * Z) (l : list (pystr * Z))
  : list (pystr * Z) :=
  match l with
  | [] => [p]
  | q :: l' => if snd q <=? snd p then p :: l else q :: insert_desc p l'
  end.

Definition sorted_desc (l : list (pystr * Z)) : list (pystr * Z) :=
  fold_right insert_desc [] l.

(** Unpacking the transposed pairs into two tuples: with no pair there
    is nothing to unpack. *)
Definition unzip2 (pairs : list (pystr * Z)) : Result (list pystr * list Z) :=
  match pairs with
  | [] => Raise (mkExc ValueError
                   (py "not enough values to unpack (expected 2, got 0)"))
  | _ => Ok (map fst pairs, map snd pairs)
  end.

Definition percent_label (p : Z) : pystr := str_int p ++ py "%".

Definition create_supplement_chart (supplement_counts : counter)
    (total_queries : Z) : Result Figure :=
  let supplements := keys supplement_counts in
  rbind (map_result (fun count => percentage count total_queries)
           (values supplement_counts)) (fun percentages =>
  let sorted_data := sorted_desc (combine supplements percentages) in
  rbind (unzip2 sorted_data) (fun '(sorted_supplements, sorted_percentages) =>
  Ok (mkFigure
        (mkBar sorted_percentages sorted_supplements (py "h")
           (map percent_label sorted_percentages)
           (py "inside") (py "end") (py "white") (py "#1f77b4"))
        (mkLayout (py "Percentage of Queries (%)") (py "")
           (0, 100) 20
           (400 + Z.of_nat (length supplements) * 20)
           (0, 10, 30, 0)
           (py "reversed"))))).

(** ** The page, the session and the API *)

(** What a [st.write] shows.  The debug lines interpolate Python values
    ([repr] of a response, of a list, of a dict); the values are kept
    as they are instead of their renderings. *)
Inductive Message :=
| Text (s : pystr)
| DebugRawApiResponse (content : PyValue)
| DebugApiResponse (supplements : list pystr)
| DebugSupplementCounts (counts : counter).

(** The elements a run puts on the page, in order.  (The input widgets
    are not listed: what they return is in [FormInputs].) *)
Inductive UiEvent :=
| StTitle (s : pystr)
| StWrite (m : Message)
| StError (s : pystr)
| StSpinner (s : pystr)
| StSubheader (s : pystr)
| StPlotlyChart (fig : Figure)
| StCaption (s : pystr)
| StSidebarTitle (s : pystr)
| StSidebarInfo (s : pystr).

(** [client.messages.create(...)]: the arguments of one call. *)
Record ApiRequest := mkRequest {
  req_model : pystr;
  req_max_tokens : Z;
  req_temperature : Z;
  req_user_content : pystr
}.

(** What one call gives: a response with its [content], or an
    exception. *)
Inductive ApiOutcome :=
| Replied (content : PyValue)
| Failed (e : PyExc).

(** The world a run acts on: [st.session_state] (the only key the
    script uses is [debug_mode]; [None] while it is not set), the
    language-model service (what it answers to the i-th call ever made,
    and the calls made so far) and the page. *)
Record World := mkWorld {
  debug_mode : option bool;
  api_replies : nat -> ApiOutcome;
  api_log : list ApiRequest;
  page : list UiEvent
}.

(** Computations that read and change the world and can raise. *)
Definition M (A : Type) : Type := World -> Result A * World.

Definition ret {A} (a : A) : M A := fun w => (Ok a, w).

Definition bind {A B} (m : M A) (f : A -> M B) : M B :=
  fun w =>
    match m w with
    | (Ok a, w') => f a w'
    | (Raise e, w') => (Raise e, w')
    end.

Definition lift {A} (r : Result A) : M A := fun w => (r, w).

(** [try: body except Exception as e: handler(e)] *)
Definition try_except {A} (body : M A) (handler : PyExc -> M A) : M A :=
  fun w =>
    match body w with
    | (Ok a, w') => (Ok a, w')
    | (Raise e, w') => handler e w'
    end.

Declare Scope monad_scope.
Delimit Scope monad_scope with monad.
Notation "x <- m ;; k" := (bind m (fun x => k))
  (at level 61, m at next level, right associativity) : monad_scope.
Notation "m ;; k" := (bind m (fun _ => k))
  (at level 61, right associativity) : monad_scope.
Local Open Scope monad_scope.

Definition when (b : bool) (m : M unit) : M unit :=
  if b then m else ret tt.

Definition st_show (ev : UiEvent) : M unit :=
  fun w => (Ok tt, mkWorld (debug_mode w) (api_replies w) (api_log w)
                     (page w ++ [ev])).

(** What Streamlit raises when an attribute that is not set is read
    from [st.session_state]: an AttributeError with the framework's
    own message (its last part, a link to the documentation, has
    changed between versions of the framework). *)
Definition missing_attribute (key : pystr) : PyExc :=
  mkExc AttributeError
    (py "st.session_state has no attribute " ++ [34%N] ++ key ++ [34%N]
     ++ py ". Did you forget to initialize it? More info: https://docs.streamlit.io/develop/concepts/architecture/session-state#initialization").

(** [st.session_state.debug_mode]: reading a key that is not set
    raises. *)
Definition get_debug_mode : M bool :=
  fun w =>
    match debug_mode w with
    | Some b => (Ok b, w)
    | None => (Raise (missing_attribute (py "debug_mode")), w)
    end.

Definition set_debug_mode (b : bool) : M unit :=
  fun w => (Ok tt, mkWorld (Some b) (api_replies w) (api_log w) (page w)).

(** ["debug_mode" in st.session_state] *)
Definition has_debug_mode : M bool :=
  fun w => (Ok (match debug_mode w with Some _ => true | None => false end), w).

Definition messages_create (req : ApiRequest) : M PyValue :=
  fun w =>
    let w' := mkWorld (debug_mode w) (api_replies w) (api_log w ++ [req])
                (page w) in
    match api_replies w (length (api_log w)) with
    | Replied content => (Ok content, w')
    | Failed e => (Raise e, w')
    end.

(** ** get_supplement_information *)

Definition MODEL : pystr := py "claude-3-5-sonnet-20240620".

Definition nl : pystr := [10%N].

Definition prompt_of (user_info : pystr) : pystr :=
  nl ++ py "    Given the following user information:"
  ++ nl ++ py "    " ++ user_info
  ++ nl ++ py "    "
  ++ nl ++ py "    Provide a list of 5 supplements that have been studied in scientific literature for potential health benefits related to this person's profile. "
  ++ nl ++ py "    Include only supplements with peer-reviewed research support."
  ++ nl ++ py "    Format your response as a comma-separated list of supplement names only."
  ++ nl ++ py "    Do not include any health claims or recommendations."
  ++ nl ++ py "    ".

Definition request_of (user_info : pystr) : ApiRequest :=
  mkRequest MODEL 300 1 (prompt_of user_info).

(** The message of the [except] branch. *)
Definition fetch_error (e : PyExc) : UiEvent :=
  StError (py "An error occurred while fetching supplement information: "
           ++ exc_str e).

Definition get_supplement_information (user_info : pystr)
  : M (list pystr) :=
  let prompt := prompt_of user_info in
  try_except
    (response_content <- messages_create (mkRequest MODEL 300 1 prompt) ;;
     debug <- get_debug_mode ;;
     when debug (st_show (StWrite (DebugRawApiResponse response_content))) ;;
     lift (parse_supplement_list response_content))
    (fun e => st_show (fetch_error e) ;; ret []).

(** ** main *)

Inductive Gender := Male | Female | Other.
Inductive Diet := Omnivore | Vegetarian | Vegan | Pescatarian.
Inductive ActivityLevel := Sedentary | ModeratelyActive | VeryActive.

Definition gender_str (g : Gender) : pystr :=
  match g with
  | Male => py "Male" | Female => py "Female" | Other => py "Other"
  end.

Definition diet_str (d : Diet) : pystr :=
  match d with
  | Omnivore => py "Omnivore" | Vegetarian => py "Vegetarian"
  | Vegan => py "Vegan" | Pescatarian => py "Pescatarian"
  end.

Definition activity_str (a : ActivityLevel) : pystr :=
  match a with
  | Sedentary => py "Sedentary"
  | ModeratelyActive => py "Moderately Active"
  | VeryActive => py "Very Active"
  end.

(** What the widgets return in one run of the script.  [tab1_selected]
    is the truth value of [tab1.selected], [tab1] being the tab
    labelled Imperial; the number inputs are ints. *)
Record FormInputs := mkForm {
  age : Z;
  gender : Gender;
  diet : Diet;
  activity_level : ActivityLevel;
  tab1_selected : bool;
  weight_lbs : Z;
  height_ft : Z;
  height_in : Z;
  weight_kg : Z;
  height_cm : Z;
  health_interests : pystr;
  button : bool
}.

(** An int or a float, as [weight] and [height] are. *)
Inductive PyNumber :=
| PyInt (n : Z)
| PyFloat (x : Float64.float).

(** How an f-string shows a number. *)
Definition number_str (v : PyNumber) : pystr :=
  match v with
  | PyInt n => str_int n
  | PyFloat x => Float64.repr x
  end.

(** Lines 148-153: the weight and height that go into the profile. *)
Definition weight_and_height (inp : FormInputs)
  : Result (PyNumber * PyNumber) :=
  if tab1_selected inp then
    Ok (PyInt (weight_kg inp), PyInt (height_cm inp))
  else
    rbind (Float64.of_int (weight_lbs inp)) (fun lbs =>
    let weight :=
      Float64.round1 (Float64.mul lbs (Float64.literal 45359237 8)) in
    rbind (Float64.of_int (height_ft inp)) (fun ft =>
    rbind (Float64.of_int (height_in inp)) (fun inches =>
    let height :=
      Float64.round1
        (Float64.add (Float64.mul ft (Float64.literal 3048 2))
                     (Float64.mul inches (Float64.literal 254 2))) in
    Ok (PyFloat weight, PyFloat height)))).

(** Line 160: the user profile. *)
Definition user_info_of (inp : FormInputs) (weight height : PyNumber)
  : pystr :=
  py "Age: " ++ str_int (age inp)
  ++ py ", Gender: " ++ gender_str (gender inp)
  ++ py ", Weight: " ++ number_str weight ++ py "kg"
  ++ py ", Height: " ++ number_str height ++ py "cm"
  ++ py ", Activity Level: " ++ activity_str (activity_level inp)
  ++ py ", Dietary Preference: " ++ diet_str (diet inp)
  ++ py ", Health Interests: " ++ health_interests inp.

Definition num_queries : nat := 5.

(** Lines 165-169: the loop body runs [n] times; [all_supplements] is
    the list being extended. *)
Fixpoint query_loop (n : nat) (user_info : pystr)
    (all_supplements : list pystr) : M (list pystr) :=
  match n with
  | O => ret all_supplements
  | S n' =>
      supplements <- get_supplement_information user_info ;;
      let all_supplements := all_supplements ++ supplements in
      debug <- get_debug_mode ;;
      when debug (st_show (StWrite (DebugApiResponse supplements))) ;;
      query_loop n' user_info all_supplements
  end.

Definition chart_heading : UiEvent :=
  StSubheader (py "Supplement Mention Frequency in Scientific Literature").

Definition chart_note : UiEvent :=
  StWrite (Text (py
    "This chart shows how often each supplement was mentioned across multiple queries to the AI model.")).

Definition chart_reminder : UiEvent :=
  StWrite (Text (py
    "Remember: Mention frequency in scientific literature does not imply effectiveness or safety for your specific situation.")).

Definition unable_error : UiEvent :=
  StError (py
    "Unable to fetch supplement information. Please try again later.").

(** Lines 171-194: the chart, or the error message. *)
Definition show_results (all_supplements : list pystr) : M unit :=
  match all_supplements with
  | _ :: _ =>
      let supplement_counts := Counter all_supplements in
      debug <- get_debug_mode ;;
      when debug
        (st_show (StWrite (DebugSupplementCounts supplement_counts))) ;;
      st_show chart_heading ;;
      fig <- lift (create_supplement_chart supplement_counts
                     (Z.of_nat num_queries)) ;;
      st_show (StPlotlyChart fig) ;;
      st_show chart_note ;;
      st_show chart_reminder
  | [] => st_show unable_error
  end.

Definition intro_text : pystr :=
  nl ++ py "    This tool provides information about supplements that have been studied in scientific literature. "
  ++ nl ++ py "    It does not make recommendations or provide medical advice. "
  ++ nl ++ py "    Always consult with a qualified healthcare professional before starting any supplement regimen."
  ++ nl ++ py "    ".

Definition disclaimer_text : pystr :=
  nl ++ py "        Disclaimer: This information is for educational purposes only and does not constitute medical advice. "
  ++ nl ++ py "        The mentions of supplements are based on AI analysis of scientific literature and may not be comprehensive or up-to-date. "
  ++ nl ++ py "        Individual responses to supplements can vary greatly. "
  ++ nl ++ py "        Always consult with a qualified healthcare provider before starting any new supplement regimen."
  ++ nl ++ py "        ".

Definition about_text : pystr :=
  nl ++ py "    Max Ghenis built this app using the Claude 3.5 Sonnet API."
  ++ nl ++ py "    "
  ++ nl ++ py "    No user data is collected or stored."
  ++ nl ++ py "    "
  ++ nl ++ py "    For questions or feedback, please contact me at mghenis@gmail.com."
  ++ nl ++ py "    ".

Definition title : UiEvent :=
  StTitle (py "AI-Powered Supplement Information Tool").

Definition intro : UiEvent := StWrite (Text intro_text).

Definition disclaimer : UiEvent := StCaption disclaimer_text.

Definition about_title : UiEvent := StSidebarTitle (py "About").

Definition about : UiEvent := StSidebarInfo about_text.

Definition spinner : UiEvent :=
  StSpinner (py "Fetching and analyzing supplement information...").

(** What happens when the button is pressed (lines 160-203). *)
Definition on_button (user_info : pystr) : M unit :=
  st_show spinner ;;
  all_supplements <- query_loop num_queries user_info [] ;;
  show_results all_supplements ;;
  st_show disclaimer.

(** One run of the script.  [debug_box] is what the user did with the
    Debug Mode checkbox, if anything: untouched, it returns the value
    it is given. *)
Definition main (inp : FormInputs) (debug_box : option bool) : M unit :=
  st_show title ;;
  st_show intro ;;
  wh <- lift (weight_and_height inp) ;;
  let '(weight, height) := wh in
  (if button inp then on_button (user_info_of inp weight height)
   else ret tt) ;;
  st_show about_title ;;
  st_show about ;;
  present <- has_debug_mode ;;
  when (negb present) (set_debug_mode false) ;;
  current <- get_debug_mode ;;
  set_debug_mode (match debug_box with Some b => b | None => current end).

(** * Vocabulary of the properties *)

Definition starts_with_space (s : pystr) : bool :=
  match s with
  | [] => false
  | c :: _ => is_space c
  end.

Definition ends_with_space (s : pystr) : bool := starts_with_space (rev s).

(** A supplement name as the parser returns it: not empty, no
    whitespace at either end. *)
Definition clean_name (s : pystr) : Prop :=
  s <> [] /\ starts_with_space s = false /\ ends_with_space s = false.

(** The comma-separated items of a text: the one way to cut it at its
    commas. *)
Definition comma_items (text : pystr) (items : list pystr) : Prop :=
  join comma items = text /\ Forall (fun p => ~ In comma p) items.

(** The text the parser works on, for the inputs it accepts. *)
Definition text_of (v : PyValue) : option pystr :=
  match v with
  | PyStr s => Some s
  | PyList (WithText t :: _) => Some t
  | PyList (NoText s :: _) => Some s
  | _ => None
  end.


(** A dict has distinct keys. *)
Definition well_keyed (c : counter) : Prop := NoDup (keys c).

(** The order of the bars: larger percentages first. *)
Definition by_percentage_desc (a b : pystr * Z) : Prop := snd b <= snd a.

(** A float that is zero or finite, of magnitude below [2^T]. *)
Definition finite_below (T : Z) (x : spec_float) : Prop :=
  match x with
  | S754_zero _ => True
  | S754_finite _ m e => e <= 971 /\ Zdigits2 (Zpos m) + e <= T
  | _ => False
  end.

(** [float(100)] *)
Definition hundred : Float64.float := S754_finite false 7036874417766400 (-46).

(** A count of list elements: a Python list holds fewer than [2^63]
    items. *)
Definition count_in_range (c : Z) : Prop := 0 <= c < 2 ^ 63.

(** The bars of a figure, from the top: label and length. *)
Definition bars (fig : Figure) : list (pystr * Z) :=
  combine (bar_y (fig_data fig)) (bar_x (fig_data fig)).

(** What one query collects from the reply it gets. *)
Definition reply_supplements (o : ApiOutcome) : list pystr :=
  match o with
  | Replied content =>
      match parse_supplement_list content with
      | Ok names => names
      | Raise _ => []
      end
  | Failed _ => []
  end.

(** What one query shows. *)
Definition fetch_events (debug : bool) (o : ApiOutcome) : list UiEvent :=
  match o with
  | Replied content =>
      (if debug then [StWrite (DebugRawApiResponse content)] else [])
      ++ match parse_supplement_list content with
         | Ok _ => []
         | Raise e => [fetch_error e]
         end
  | Failed e => [fetch_error e]
  end.

(** What one turn of the loop shows. *)
Definition turn_events (debug : bool) (o : ApiOutcome) : list UiEvent :=
  fetch_events debug o
  ++ (if debug then [StWrite (DebugApiResponse (reply_supplements o))]
      else []).

(** The replies to the next [n] calls. *)
Definition next_replies (w : World) (n : nat) : list ApiOutcome :=
  map (fun i => api_replies w (length (api_log w) + i)%nat) (seq 0 n).

(** All the mentions collected from a sequence of replies. *)
Definition collected (os : list ApiOutcome) : list pystr :=
  concat (map reply_supplements os).

Definition loop_events (debug : bool) (os : list ApiOutcome) : list UiEvent :=
  concat (map (turn_events debug) os).

Definition results_events (debug : bool) (all : list pystr) : list UiEvent :=
  match all with
  | [] => [unable_error]
  | _ :: _ =>
      (if debug then [StWrite (DebugSupplementCounts (Counter all))] else [])
      ++ chart_heading
      :: match create_supplement_chart (Counter all) (Z.of_nat num_queries) with
         | Ok fig => [StPlotlyChart fig; chart_note; chart_reminder]
         | Raise _ => []
         end
  end.

Definition press_events (debug : bool) (os : list ApiOutcome) : list UiEvent :=
  [title; intro; spinner] ++ loop_events debug os
  ++ results_events debug (collected os) ++ [disclaimer; about_title; about].

Definition is_debug_line (ev : UiEvent) : bool :=
  match ev with
  | StWrite (Text _) => false
  | StWrite _ => true
  | _ => false
  end.

Definition is_chart (ev : UiEvent) : bool :=
  match ev with StPlotlyChart _ => true | _ => false end.

(** What the number inputs allow (their [min_value] and [max_value]). *)
Definition valid_form (inp : FormInputs) : Prop :=
  18 <= age inp <= 120
  /\ 66 <= weight_lbs inp <= 660
  /\ 3 <= height_ft inp <= 8
  /\ 0 <= height_in inp <= 11
  /\ 30 <= weight_kg inp <= 300
  /\ 100 <= height_cm inp <= 250.

(** A Python list holds fewer than [2^63] items. *)
Definition list_size_ok (l : list pystr) : Prop :=
  Z.of_nat (length l) < 2 ^ 63.

(** The chart a press shows for the mentions it collected, if any. *)
Definition shown_chart (all : list pystr) : list UiEvent :=
  match all with
  | [] => []
  | _ :: _ =>
      match create_supplement_chart (Counter all) (Z.of_nat num_queries) with
      | Ok fig => [StPlotlyChart fig]
      | Raise _ => []
      end
  end.

(** What the page shows apart from the debug lines. *)
Definition not_debug_line (ev : UiEvent) : bool := negb (is_debug_line ev).

(** A form filled in on the Imperial tab: 200 lbs, 6 ft 0 in; the
    Metric tab still shows its initial 70 kg and 170 cm. *)
Definition imperial_form : FormInputs :=
  mkForm 30 Male Omnivore Sedentary true 200 6 0 70 170 (py "sleep") true.

(** The same entries when [tab1.selected] is false. *)
Definition imperial_form_unselected : FormInputs :=
  mkForm 30 Male Omnivore Sedentary false 200 6 0 70 170 (py "sleep") true.

(** A service that names zinc twice in every reply. *)
Definition doubled_reply : ApiOutcome :=
  Replied (PyList [WithText (py "Zinc, Zinc")]).

Definition doubled_world : World :=
  mkWorld (Some false) (fun _ => doubled_reply) [] [].

(** A service whose second call fails. *)
Definition example_replies (i : nat) : ApiOutcome :=
  match i with
  | 1%nat => Failed (mkExc (OtherError (py "APIError")) (py "overloaded"))
  | 2%nat => Replied (PyList [])
  | _ => Replied (PyList [WithText (py "Zinc, Vitamin D ,, Iron")])
  end.

Definition example_world : World :=
  mkWorld (Some true) example_replies [] [].

Definition example_world_later : World :=
  mkWorld (Some false) (fun i => example_replies (i - 5))
    (repeat (request_of (py "earlier")) 5) [title].

(** [name] occurs in [text] as a run of consecutive characters. *)
Definition substring (name text : pystr) : Prop :=
  exists before after, text = before ++ name ++ after.

(** Nothing but whitespace. *)
Definition blank (s : pystr) : Prop := Forall (fun c => is_space c = true) s.

(** The sum of the counts. *)
Definition total (c : counter) : Z := fold_right Z.add 0 (values c).

(** [a == b] on names. *)
Definition same_name (a b : pystr) : bool :=
  if pystr_eq_dec a b then true else false.

(** The distinct names of a list, in the order of their first
    mention. *)
Fixpoint first_mentions (l : list pystr) : list pystr :=
  match l with
  | [] => []
  | x :: l' => x :: filter (fun y => negb (same_name x y)) (first_mentions l')
  end.

(** [check c] holds for every [c] from 0 up to [n], excluded. *)
Definition all_below (check : Z -> bool) (n : Z) : bool :=
  forallb check (map Z.of_nat (seq 0 (Z.to_nat n))).

(** [percentage c 5] is [20 * c]. *)
Definition twenty_per_mention (c : Z) : bool :=
  match percentage c 5 with
  | Ok p => p =? 20 * c
  | Raise _ => false
  end.

(** The weight in tenths of a kilogram: [lbs * 0.45359237] rounded to
    one decimal, computed exactly. *)
Definition kg_tenths (lbs : Z) : Z :=
  Float64.round_half_even_div (lbs * 45359237) (10 ^ 7).

(** The height in millimetres: [ft * 30.48 + inches * 2.54] rounded to
    one decimal, computed exactly. *)
Definition cm_tenths (ft inches : Z) : Z :=
  Float64.round_half_even_div (ft * 3048 + inches * 254) 10.

(** The float a one-decimal numeral reads as. *)
Definition one_decimal (tenths : Z) : Float64.float :=
  Float64.nearest_quotient tenths 10.

(** The conversions agree with the exact ones. *)
Definition weight_exact (lbs : Z) : bool :=
  match Float64.of_int lbs with
  | Ok x =>
      Float64.same_float
        (Float64.round1 (Float64.mul x (Float64.literal 45359237 8)))
        (one_decimal (kg_tenths lbs))
  | Raise _ => false
  end.

Definition height_exact (ft inches : Z) : bool :=
  match Float64.of_int ft, Float64.of_int inches with
  | Ok x, Ok y =>
      Float64.same_float
        (Float64.round1
           (Float64.add (Float64.mul x (Float64.literal 3048 2))
              (Float64.mul y (Float64.literal 254 2))))
        (one_decimal (cm_tenths ft inches))
  | _, _ => false
  end.

(** From [w] to [w'] the service is the same, at most [bound] requests
    were sent, all of them [req], and the page was only added to. *)
Definition grows_by (req : ApiRequest) (bound : nat) (w w' : World) : Prop :=
  api_replies w' = api_replies w
  /\ (exists k, (k <= bound)%nat /\ api_log w' = api_log w ++ repeat req k)
  /\ (exists evs, page w' = page w ++ evs).

(** Whatever the world and the outcome, [m] sends at most [bound]
    requests, all of them [req]. *)
Definition sends_at_most {A : Type} (req : ApiRequest) (bound : nat)
    (m : M A) : Prop :=
  forall w, grows_by req bound w (snd (m w)).

(** What the [except] branch shows when [debug_mode] is not set: the
    exception of the call if it failed, else the one of the missing
    key. *)
Definition unset_error (o : ApiOutcome) : PyExc :=
  match o with
  | Failed e => e
  | Replied _ => missing_attribute (py "debug_mode")
  end.

(** [m] never writes the session flag. *)
Definition keeps_session {A : Type} (m : M A) : Prop :=
  forall w, debug_mode (snd (m w)) = debug_mode w.

(** The flag a completed run leaves: what the checkbox returns, which
    is the flag found (False when there is none) if the user did not
    touch it. *)
Definition flag_after (debug_box : option bool) (w : World) : bool :=
  match debug_box with
  | Some b => b
  | None => match debug_mode w with
            | Some d => d
            | None => false
            end
  end.

(** A session in which the script has not run yet. *)
Definition fresh_world : World := mkWorld None example_replies [] [].

(** The form as it is before the button is pressed. *)
Definition idle_form : FormInputs :=
  mkForm 30 Male Omnivore Sedentary true 154 5 7 70 170 (py "") false.

(** * Properties *)

(** ** The embedding on sample inputs *)

Example parse_sample :
  parse_supplement_list (PyStr (py " Zinc , ,Vitamin D,, Omega-3 "))
  = Ok [py "Zinc"; py "Vitamin D"; py "Omega-3"].
Proof. reflexivity. Qed.

Example split_keeps_empty_pieces :
  split comma (py ",a,,b,") = [py ""; py "a"; py ""; py "b"; py ""].
Proof. reflexivity. Qed.

Example percentage_one_of_five : percentage 1 5 = Ok 20.
Proof. vm_compute. reflexivity. Qed.

(** 1/8 of 100 is 12.5 exactly: the tie goes to the even integer. *)
Example percentage_tie_to_even : percentage 1 8 = Ok 12.
Proof. vm_compute. reflexivity. Qed.

(** 23/40 of 100 is 57.5, but the binary64 product is
    57.49999999999999. *)
Example percentage_binary_rounding : percentage 23 40 = Ok 57.
Proof. vm_compute. reflexivity. Qed.

Example percentage_of_no_queries :
  percentage 1 0 = Raise (mkExc ZeroDivisionError (py "division by zero")).
Proof. reflexivity. Qed.

Example repr_of_a_sum :
  Float64.repr (Float64.add (Float64.literal 1 1) (Float64.literal 2 1))
  = py "0.30000000000000004".
Proof. vm_compute. reflexivity. Qed.

Example repr_of_a_power_of_ten :
  Float64.repr (Float64.nearest_quotient (10 ^ 16) 1) = py "1e+16".
Proof. vm_compute. reflexivity. Qed.

Example round1_of_a_weight :
  Float64.repr
    (Float64.round1
       (Float64.mul (Float64.nearest_quotient 200 1)
          (Float64.literal 45359237 8)))
  = py "90.7".
Proof. vm_compute. reflexivity. Qed.

Example chart_of_no_counts :
  create_supplement_chart [] 5
  = Raise (mkExc ValueError
             (py "not enough values to unpack (expected 2, got 0)")).
Proof. reflexivity. Qed.

Example chart_keeps_order_of_ties :
  exists fig,
    create_supplement_chart
      (Counter (map py ["a"; "b"; "a"; "c"; "b"; "a"; "d"]%string)) 5 = Ok fig
    /\ bars fig = [(py "a", 60); (py "b", 40); (py "c", 20); (py "d", 20)]
    /\ bar_text (fig_data fig) = [py "60%"; py "40%"; py "20%"; py "20%"]
    /\ height (fig_layout fig) = 480.
Proof.
  eexists. split; [vm_compute; reflexivity|].
  repeat split; vm_compute; reflexivity.
Qed.

(** ** Strings: [strip] and [split] *)


Lemma lstrip_starts : forall s, starts_with_space (lstrip s) = false.
Proof.
  induction s as [|c s IH]; simpl; [reflexivity|].
  destruct (is_space c) eqn:Hc; [exact IH|].
  simpl. exact Hc.
Qed.

Lemma lstrip_suffix : forall s, exists pre, s = pre ++ lstrip s.
Proof.
  induction s as [|c s [pre IH]]; simpl.
  - exists []. reflexivity.
  - destruct (is_space c).
    + exists (c :: pre). simpl. now rewrite <- IH.
    + exists []. reflexivity.
Qed.

Lemma rstrip_prefix : forall s, exists suf, s = rstrip s ++ suf.
Proof.
  intros s. unfold rstrip.
  destruct (lstrip_suffix (rev s)) as [pre H].
  exists (rev pre).
  rewrite <- rev_app_distr, <- H. symmetry. apply rev_involutive.
Qed.

Lemma rstrip_ends : forall s, ends_with_space (rstrip s) = false.
Proof.
  intros s. unfold ends_with_space, rstrip.
  rewrite rev_involutive. apply lstrip_starts.
Qed.

Lemma rstrip_starts :
  forall s, starts_with_space s = false ->
            starts_with_space (rstrip s) = false.
Proof.
  intros s Hs. destruct (rstrip_prefix s) as [suf H].
  destruct (rstrip s) as [|c r] eqn:E; [reflexivity|].
  rewrite H in Hs. exact Hs.
Qed.

Lemma strip_starts : forall s, starts_with_space (strip s) = false.
Proof. intros s. apply rstrip_starts, lstrip_starts. Qed.

Lemma strip_ends : forall s, ends_with_space (strip s) = false.
Proof. intros s. apply rstrip_ends. Qed.

Lemma truthy_nonempty : forall s, truthy s = true <-> s <> [].
Proof.
  intros [|c s]; simpl; split; intros H; try congruence; discriminate.
Qed.

Lemma strip_clean : forall s, truthy (strip s) = true -> clean_name (strip s).
Proof.
  intros s H. split; [now apply truthy_nonempty|].
  split; [apply strip_starts | apply strip_ends].
Qed.

Lemma split_nonempty : forall sep s, split sep s <> [].
Proof.
  intros sep [|c s]; simpl; [discriminate|].
  destruct (c =? sep)%N; [discriminate|].
  destruct (split sep s); discriminate.
Qed.

Lemma join_cons :
  forall sep p q rest, join sep (p :: q :: rest) = p ++ sep :: join sep (q :: rest).
Proof. reflexivity. Qed.

(** Splitting loses nothing: the pieces joined by the separator give
    the text back. *)
Lemma join_split : forall sep s, join sep (split sep s) = s.
Proof.
  intros sep. induction s as [|c s IH]; simpl; [reflexivity|].
  destruct (N.eqb_spec c sep) as [->|Hne].
  - destruct (split sep s) as [|q rest] eqn:E.
    + now apply split_nonempty in E.
    + rewrite join_cons, IH. reflexivity.
  - destruct (split sep s) as [|q rest] eqn:E.
    + now apply split_nonempty in E.
    + destruct rest as [|q' rest]; simpl in *; now rewrite <- IH.
Qed.

(** No piece contains the separator. *)
Lemma split_pieces : forall sep s, Forall (fun p => ~ In sep p) (split sep s).
Proof.
  intros sep. induction s as [|c s IH]; simpl.
  - constructor; [intros []|constructor].
  - destruct (N.eqb_spec c sep) as [->|Hne].
    + constructor; [intros []|exact IH].
    + destruct (split sep s) as [|q rest]; [repeat constructor|].
      * intros [H|[]]. congruence.
      * inversion IH; subst. constructor; [|assumption].
        intros [H|H]; [congruence|contradiction].
Qed.

Lemma filter_map_swap :
  forall (A B : Type) (f : A -> B) (p : B -> bool) (l : list A),
    map f (filter (fun a => p (f a)) l) = filter p (map f l).
Proof.
  intros A B f p. induction l as [|a l IH]; simpl; [reflexivity|].
  destruct (p (f a)); simpl; now rewrite IH.
Qed.

Lemma parse_supplement_list_text :
  forall v text,
    text_of v = Some text ->
    parse_supplement_list v
    = Ok (filter truthy (map strip (split comma text))).
Proof.
  intros v text H. unfold parse_supplement_list.
  rewrite <- filter_map_swap.
  destruct v as [s|[|[t|s|ty|e0] items]|t]; simpl in H; inversion H; subst;
    reflexivity.
Qed.

(** C8. For every input the parser accepts (a string, or a non-empty
    list whose first element has a text attribute or is converted with
    str), every element of the returned list is a non-empty string
    with no whitespace at its start or end, and the list is, in order,
    the stripped comma-separated items of the text that are not
    blank. *)
Theorem parse_supplement_list_clean_in_order :
  forall v text,
    text_of v = Some text ->
    exists items names,
      parse_supplement_list v = Ok names
      /\ comma_items text items
      /\ names = filter truthy (map strip items)
      /\ Forall clean_name names.
Proof.
  intros v text H.
  exists (split comma text), (filter truthy (map strip (split comma text))).
  split; [now apply parse_supplement_list_text|].
  split; [split; [apply join_split | apply split_pieces]|].
  split; [reflexivity|].
  apply Forall_forall. intros name Hin.
  apply filter_In in Hin. destruct Hin as [Hin Ht].
  apply in_map_iff in Hin. destruct Hin as [item [<- _]].
  now apply strip_clean.
Qed.

Lemma parse_supplement_list_clean_in_order_witness :
  text_of (PyList [WithText (py " Zinc , ,Vitamin D")])
  = Some (py " Zinc , ,Vitamin D")
  /\ exists items names,
      parse_supplement_list (PyList [WithText (py " Zinc , ,Vitamin D")])
      = Ok names
      /\ comma_items (py " Zinc , ,Vitamin D") items
      /\ names = filter truthy (map strip items)
      /\ Forall clean_name names.
Proof.
  split; [reflexivity|].
  apply (@parse_supplement_list_clean_in_order
           (PyList [WithText (py " Zinc , ,Vitamin D")])
           (py " Zinc , ,Vitamin D")).
  reflexivity.
Defined.



(** ** Counting *)

Lemma counter_get_incr :
  forall k k' c,
    counter_get (counter_incr k c) k'
    = counter_get c k' + (if pystr_eq_dec k k' then 1 else 0).
Proof.
  intros k k'. induction c as [|[k0 n] c IH]; simpl.
  - destruct (pystr_eq_dec k' k), (pystr_eq_dec k k'); congruence || lia.
  - destruct (pystr_eq_dec k k0) as [->|Hk]; simpl.
    + destruct (pystr_eq_dec k' k0), (pystr_eq_dec k0 k'); congruence || lia.
    + destruct (pystr_eq_dec k' k0) as [->|Hk'].
      * destruct (pystr_eq_dec k k0); [congruence|lia].
      * exact IH.
Qed.

Lemma counter_get_fold :
  forall l acc k,
    counter_get (fold_left (fun c x => counter_incr x c) l acc) k
    = counter_get acc k + Z.of_nat (count_occ pystr_eq_dec l k).
Proof.
  induction l as [|x l IH]; intros acc k; simpl; [lia|].
  rewrite IH, counter_get_incr.
  destruct (pystr_eq_dec x k); lia.
Qed.

Lemma counter_get_Counter :
  forall l k, counter_get (Counter l) k = Z.of_nat (count_occ pystr_eq_dec l k).
Proof. intros l k. unfold Counter. now rewrite counter_get_fold. Qed.

Lemma counter_incr_nonempty : forall k c, counter_incr k c <> [].
Proof.
  intros k [|[k0 n] c]; simpl; [discriminate|].
  destruct (pystr_eq_dec k k0); discriminate.
Qed.

Lemma fold_incr_nonempty :
  forall l acc, acc <> [] ->
                fold_left (fun c x => counter_incr x c) l acc <> [].
Proof.
  induction l as [|x l IH]; intros acc H; simpl; [exact H|].
  apply IH, counter_incr_nonempty.
Qed.

Lemma Counter_nonempty : forall l, l <> [] -> Counter l <> [].
Proof.
  intros [|x l] H; [congruence|].
  unfold Counter. simpl. apply fold_incr_nonempty. discriminate.
Qed.

Lemma keys_incr :
  forall k c x, In x (keys (counter_incr k c)) <-> x = k \/ In x (keys c).
Proof.
  intros k c x. induction c as [|[k0 n] c IH]; simpl.
  - intuition congruence.
  - destruct (pystr_eq_dec k k0) as [->|Hk]; simpl.
    + intuition congruence.
    + rewrite IH. intuition congruence.
Qed.

Lemma well_keyed_incr :
  forall k c, well_keyed c -> well_keyed (counter_incr k c).
Proof.
  unfold well_keyed. intros k. induction c as [|[k0 n] c IH]; simpl; intros H.
  - constructor; [intros []|constructor].
  - inversion H as [|? ? Hn Hd]; subst.
    destruct (pystr_eq_dec k k0) as [->|Hk]; simpl.
    + now constructor.
    + constructor; [|now apply IH].
      intros Hin. apply (keys_incr k c k0) in Hin.
      destruct Hin; [congruence|contradiction].
Qed.

Lemma well_keyed_fold :
  forall l acc, well_keyed acc ->
                well_keyed (fold_left (fun c x => counter_incr x c) l acc).
Proof.
  induction l as [|x l IH]; intros acc H; simpl; [exact H|].
  apply IH, well_keyed_incr, H.
Qed.

Lemma well_keyed_Counter : forall l, well_keyed (Counter l).
Proof. intros l. apply well_keyed_fold. constructor. Qed.

Lemma counter_get_In :
  forall c k n, well_keyed c -> In (k, n) c -> counter_get c k = n.
Proof.
  unfold well_keyed. induction c as [|[k0 n0] c IH]; simpl; intros k n Hd Hin.
  - contradiction.
  - inversion Hd as [|? ? Hn Hd']; subst.
    destruct Hin as [Heq|Hin].
    + inversion Heq; subst. destruct (pystr_eq_dec k k); congruence.
    + destruct (pystr_eq_dec k k0) as [->|Hk]; [|now apply IH].
      exfalso. apply Hn. apply in_map_iff. now exists (k0, n).
Qed.

Lemma keys_fold :
  forall l acc x,
    In x (keys (fold_left (fun c k => counter_incr k c) l acc))
    <-> In x l \/ In x (keys acc).
Proof.
  induction l as [|y l IH]; intros acc x; simpl.
  - intuition.
  - rewrite IH, keys_incr. intuition congruence.
Qed.

(** ** Sorting the bars *)

Lemma insert_desc_perm : forall p l, Permutation (insert_desc p l) (p :: l).
Proof.
  intros p. induction l as [|q l IH]; simpl; [reflexivity|].
  destruct (snd q <=? snd p); [reflexivity|].
  rewrite IH. apply perm_swap.
Qed.

Lemma sorted_desc_perm : forall l, Permutation (sorted_desc l) l.
Proof.
  induction l as [|p l IH]; simpl; [constructor|].
  rewrite insert_desc_perm. now constructor.
Qed.

Lemma insert_desc_sorted :
  forall p l, StronglySorted by_percentage_desc l ->
              StronglySorted by_percentage_desc (insert_desc p l).
Proof.
  intros p. induction l as [|q l IH]; simpl; intros H.
  - repeat constructor.
  - inversion H as [|? ? Hs Hall]; subst.
    destruct (Z.leb_spec (snd q) (snd p)) as [Hle|Hgt].
    + constructor; [exact H|].
      constructor; [exact Hle|].
      eapply Forall_impl; [|exact Hall].
      unfold by_percentage_desc. intros a Ha. lia.
    + constructor; [now apply IH|].
      rewrite (insert_desc_perm p l).
      constructor; [unfold by_percentage_desc; lia|exact Hall].
Qed.

Lemma sorted_desc_sorted :
  forall l, StronglySorted by_percentage_desc (sorted_desc l).
Proof.
  induction l as [|p l IH]; simpl; [constructor|].
  now apply insert_desc_sorted.
Qed.

(** The sort is the stable one: pairs of one percentage keep the order
    they had. *)
Lemma insert_desc_stable :
  forall v p l,
    filter (fun q => snd q =? v) (insert_desc p l)
    = filter (fun q => snd q =? v) (p :: l).
Proof.
  intros v p. induction l as [|q l IH]; [reflexivity|].
  simpl insert_desc.
  destruct (Z.leb_spec (snd q) (snd p)) as [Hle|Hgt]; [reflexivity|].
  simpl in *. rewrite IH.
  destruct (Z.eqb_spec (snd p) v), (Z.eqb_spec (snd q) v); try reflexivity.
  lia.
Qed.

Lemma sorted_desc_stable :
  forall v l,
    filter (fun q => snd q =? v) (sorted_desc l)
    = filter (fun q => snd q =? v) l.
Proof.
  intros v. induction l as [|p l IH]; [reflexivity|].
  simpl sorted_desc. rewrite insert_desc_stable. simpl. now rewrite IH.
Qed.

Lemma sorted_desc_nonempty : forall l, l <> [] -> sorted_desc l <> [].
Proof.
  intros l H E. apply H.
  apply Permutation_nil. rewrite <- E. apply sorted_desc_perm.
Qed.

Lemma combine_fst_snd :
  forall (l : list (pystr * Z)), combine (map fst l) (map snd l) = l.
Proof.
  induction l as [|[a b] l IH]; simpl; [reflexivity|]. now rewrite IH.
Qed.

Lemma sorted_map_snd :
  forall l, StronglySorted by_percentage_desc l ->
            StronglySorted Z.ge (map snd l).
Proof.
  induction l as [|p l IH]; simpl; intros H; [constructor|].
  inversion H as [|? ? Hs Hall]; subst.
  constructor; [now apply IH|].
  apply Forall_map. eapply Forall_impl; [|exact Hall].
  unfold by_percentage_desc. intros a Ha. lia.
Qed.

(** ** Floats: the percentage never overflows

    The operations round to nearest; what is shown here is only that
    on counts they stay finite, so that [round] has a value. *)

Lemma fexp64 : forall k, fexp Float64.prec Float64.emax k = Z.max (k - 53) (-1074).
Proof. reflexivity. Qed.

Lemma digits2_pos_size : forall p, digits2_pos p = Pos.size p.
Proof. induction p; simpl; congruence. Qed.

Lemma Zdigits2_nonneg : forall m, 0 <= Zdigits2 m.
Proof. intros [|p|p]; simpl; lia. Qed.

Lemma Zdigits2_gt : forall m, 0 <= m -> m < 2 ^ Zdigits2 m.
Proof.
  intros [|p|p] H; unfold Zdigits2; [simpl; lia| |lia].
  rewrite digits2_pos_size.
  pose proof (Pos.size_gt p) as Hs.
  rewrite <- Pos2Z.inj_pow. lia.
Qed.

Lemma Zdigits2_le : forall m d, 0 <= m -> 0 <= d -> m < 2 ^ d -> Zdigits2 m <= d.
Proof.
  intros [|p|p] d Hm Hd H; unfold Zdigits2; [lia| |lia].
  rewrite digits2_pos_size.
  pose proof (Pos.size_le p) as Hs.
  assert (Hp : 2 ^ Zpos (Pos.size p) <= 2 * Zpos p).
  { rewrite <- Pos2Z.inj_pow. lia. }
  destruct (Z.le_gt_cases (Zpos (Pos.size p)) d) as [|Hgt]; [assumption|].
  exfalso.
  assert (2 ^ (d + 1) <= 2 ^ Zpos (Pos.size p)) by (apply Z.pow_le_mono_r; lia).
  rewrite Z.pow_add_r in H0 by lia. lia.
Qed.

Lemma shr_1_m : forall mrs, 0 <= shr_m mrs -> shr_m (shr_1 mrs) = shr_m mrs / 2.
Proof.
  intros [m r s] H. simpl in *.
  destruct m as [|[p|p|]|p]; simpl; try reflexivity; try lia.
  - rewrite Pos2Z.inj_xI. apply Z.div_unique with 1; lia.
  - rewrite Pos2Z.inj_xO. apply Z.div_unique with 0; lia.
Qed.

Lemma iter_shr_1_m :
  forall p mrs, 0 <= shr_m mrs ->
    shr_m (iter_pos shr_1 p mrs) = shr_m mrs / 2 ^ Zpos p.
Proof.
  assert (Hnn : forall m k, 0 <= m -> 0 < k -> 0 <= m / k).
  { intros. apply Z.div_pos; lia. }
  induction p as [p IH|p IH|]; intros mrs H; cbn [iter_pos].
  - assert (H1 : 0 <= shr_m (shr_1 mrs)) by (rewrite shr_1_m by assumption; apply Hnn; lia).
    assert (H2 : 0 <= shr_m (iter_pos shr_1 p (shr_1 mrs))).
    { rewrite IH by assumption. apply Hnn; [assumption|]. apply Z.pow_pos_nonneg; lia. }
    rewrite IH, IH, shr_1_m by assumption.
    rewrite !Z.div_div by (try apply Z.pow_pos_nonneg; lia).
    f_equal. change 2 with (2 ^ 1) at 1.
    rewrite <- !Z.pow_add_r by lia. f_equal. lia.
  - assert (H2 : 0 <= shr_m (iter_pos shr_1 p mrs)).
    { rewrite IH by assumption. apply Hnn; [assumption|]. apply Z.pow_pos_nonneg; lia. }
    rewrite IH, IH by assumption.
    rewrite !Z.div_div by (try apply Z.pow_pos_nonneg; lia).
    f_equal. rewrite <- Z.pow_add_r by lia. f_equal. lia.
  - rewrite shr_1_m by assumption. reflexivity.
Qed.


Lemma shr_record_of_loc_m : forall m l, shr_m (shr_record_of_loc m l) = m.
Proof. intros m [|[| |]]; reflexivity. Qed.

Lemma shr_fexp_bound :
  forall m e l T,
    0 <= m -> Zdigits2 m + e <= T ->
    0 <= shr_m (fst (shr_fexp Float64.prec Float64.emax m e l))
    /\ snd (shr_fexp Float64.prec Float64.emax m e l)
       <= Z.max e (Z.max (T - 53) (-1074))
    /\ Zdigits2 (shr_m (fst (shr_fexp Float64.prec Float64.emax m e l)))
       + snd (shr_fexp Float64.prec Float64.emax m e l)
       <= Z.max T (-1074).
Proof.
  intros m e l T Hm HT. unfold shr_fexp, shr.
  rewrite fexp64.
  pose proof (Zdigits2_gt m Hm) as Hgt.
  pose proof (Zdigits2_nonneg m) as Hd.
  destruct (Z.max (Zdigits2 m + e - 53) (-1074) - e) as [|p|p] eqn:En;
    cbn [fst snd]; try rewrite shr_record_of_loc_m; try (split; [|split]; lia).
  assert (Hm' : 0 <= shr_m (shr_record_of_loc m l))
    by now rewrite shr_record_of_loc_m.
  rewrite (iter_shr_1_m p _ Hm'), shr_record_of_loc_m.
  assert (Hpow : 0 < 2 ^ Zpos p) by (apply Z.pow_pos_nonneg; lia).
  split; [apply Z.div_pos; lia|]. split; [lia|].
  destruct (Z.le_gt_cases (Zpos p) (Zdigits2 m)) as [Hle|Hlt].
  - assert (m / 2 ^ Zpos p < 2 ^ (Zdigits2 m - Zpos p)).
    { apply Z.div_lt_upper_bound; [lia|].
      rewrite <- Z.pow_add_r by lia.
      replace (Zpos p + (Zdigits2 m - Zpos p)) with (Zdigits2 m) by lia.
      exact Hgt. }
    assert (Zdigits2 (m / 2 ^ Zpos p) <= Zdigits2 m - Zpos p).
    { apply Zdigits2_le; [apply Z.div_pos; lia|lia|assumption]. }
    lia.
  - assert (m / 2 ^ Zpos p = 0) as ->.
    { apply Z.div_small. split; [lia|].
      apply Z.lt_le_trans with (2 ^ Zdigits2 m); [exact Hgt|].
      apply Z.pow_le_mono_r; lia. }
    simpl Zdigits2. lia.
Qed.

Lemma round_nearest_even_bound :
  forall m l, m <= round_nearest_even m l <= m + 1.
Proof.
  intros m [|[| |]]; simpl; try lia.
  destruct (Z.even m); lia.
Qed.

Lemma Zdigits2_succ :
  forall m m', 0 <= m -> m <= m' <= m + 1 -> Zdigits2 m' <= Zdigits2 m + 1.
Proof.
  intros m m' Hm H.
  pose proof (Zdigits2_gt m Hm) as Hgt.
  pose proof (Zdigits2_nonneg m) as Hd.
  apply Zdigits2_le; [lia|lia|].
  rewrite Z.pow_add_r by lia. lia.
Qed.

Lemma binary_round_aux_bounded :
  forall s mx ex lx T,
    0 <= mx -> Zdigits2 mx + ex <= T -> T <= 1023 -> ex <= 971 ->
    finite_below (Z.max T (-1074) + 1)
      (binary_round_aux Float64.prec Float64.emax s mx ex lx).
Proof.
  intros s mx ex lx T Hm HT HT' He. unfold binary_round_aux.
  pose proof (shr_fexp_bound mx ex lx T Hm HT) as (H1 & H2 & H3).
  destruct (shr_fexp Float64.prec Float64.emax mx ex lx) as [mrs' e'].
  cbn [fst snd] in H1, H2, H3.
  pose proof (round_nearest_even_bound (shr_m mrs') (loc_of_shr_record mrs'))
    as Hr.
  set (m1 := round_nearest_even (shr_m mrs') (loc_of_shr_record mrs')) in *.
  pose proof (Zdigits2_succ _ _ H1 Hr) as Hd1.
  assert (Hm1 : 0 <= m1) by lia.
  assert (HT1 : Zdigits2 m1 + e' <= Z.max T (-1074) + 1) by lia.
  pose proof (shr_fexp_bound m1 e' loc_Exact _ Hm1 HT1) as (K1 & K2 & K3).
  destruct (shr_fexp Float64.prec Float64.emax m1 e' loc_Exact) as [mrs'' e''].
  cbn [fst snd] in K1, K2, K3.
  destruct (shr_m mrs'') as [|m|m] eqn:Em; [exact I| |lia].
  assert (He'' : e'' <= 971) by lia.
  replace (e'' <=? Float64.emax - Float64.prec) with true
    by (symmetry; apply Z.leb_le; unfold Float64.emax, Float64.prec; lia).
  split; [exact He''|lia].
Qed.

Lemma finite_below_mono :
  forall T T' x, T <= T' -> finite_below T x -> finite_below T' x.
Proof. intros T T' [s|s| |s m e] H; simpl; intuition lia. Qed.

Lemma SFdiv_core_bound :
  forall m1 e1 m2 e2,
    0 < m1 -> 0 < m2 ->
    0 <= fst (fst (SFdiv_core_binary Float64.prec Float64.emax m1 e1 m2 e2))
    /\ snd (fst (SFdiv_core_binary Float64.prec Float64.emax m1 e1 m2 e2))
       <= e1 - e2
    /\ Zdigits2 (fst (fst (SFdiv_core_binary Float64.prec Float64.emax
                             m1 e1 m2 e2)))
       + snd (fst (SFdiv_core_binary Float64.prec Float64.emax m1 e1 m2 e2))
       <= Zdigits2 m1 + e1 - e2.
Proof.
  intros m1 e1 m2 e2 H1 H2. unfold SFdiv_core_binary.
  set (e' := Z.min _ (e1 - e2)).
  assert (He' : e' <= e1 - e2) by apply Z.le_min_r.
  set (m' := match e1 - e2 - e' with
             | 0 => m1
             | Z.pos _ => Z.shiftl m1 (e1 - e2 - e')
             | Z.neg _ => 0
             end).
  assert (Hm' : m' = m1 * 2 ^ (e1 - e2 - e')).
  { unfold m'. destruct (e1 - e2 - e') as [|p|p] eqn:E; [simpl; lia| |lia].
    apply Z.shiftl_mul_pow2. lia. }
  assert (Hpow : 0 < 2 ^ (e1 - e2 - e')) by (apply Z.pow_pos_nonneg; lia).
  pose proof (Z_div_mod m' m2 ltac:(lia)) as Hdm.
  destruct (Z.div_eucl m' m2) as [q r]. cbn [fst snd].
  destruct Hdm as [Hq Hr].
  assert (Hq0 : 0 <= q) by nia.
  assert (Hqm : q <= m') by nia.
  pose proof (Zdigits2_gt m1 ltac:(lia)) as Hgt.
  pose proof (Zdigits2_nonneg m1) as Hd.
  assert (Zdigits2 q <= Zdigits2 m1 + (e1 - e2 - e')).
  { apply Zdigits2_le; [lia|lia|].
    rewrite Z.pow_add_r by lia. nia. }
  split; [exact Hq0|]. split; lia.
Qed.

Lemma nearest_quotient_bounded :
  forall c n,
    0 <= c < 2 ^ 1000 -> 0 < n ->
    finite_below 1001 (Float64.nearest_quotient c n).
Proof.
  intros c n [Hc0 Hc] Hn. unfold Float64.nearest_quotient.
  destruct c as [|pc|pc]; [exact I| |lia].
  destruct n as [|pn|pn]; try lia.
  cbn [Z.ltb Z.compare Z.abs Z.to_pos SFdiv].
  pose proof (SFdiv_core_bound (Zpos pc) 0 (Zpos pn) 0 ltac:(lia) ltac:(lia))
    as (H1 & H2 & H3).
  destruct (SFdiv_core_binary Float64.prec Float64.emax (Zpos pc) 0 (Zpos pn) 0)
    as [[mz ez] lz].
  cbn [fst snd] in H1, H2, H3.
  assert (Hd : Zdigits2 (Zpos pc) <= 1000) by (apply Zdigits2_le; lia).
  eapply finite_below_mono;
    [|apply (binary_round_aux_bounded (xorb false false) mz ez lz 1000); lia].
  lia.
Qed.

Lemma of_int_hundred : Float64.of_int 100 = Ok hundred.
Proof. reflexivity. Qed.

Lemma Zdigits2_mul :
  forall a b, 0 <= a -> 0 <= b -> Zdigits2 (a * b) <= Zdigits2 a + Zdigits2 b.
Proof.
  intros a b Ha Hb.
  pose proof (Zdigits2_gt a Ha). pose proof (Zdigits2_gt b Hb).
  pose proof (Zdigits2_nonneg a). pose proof (Zdigits2_nonneg b).
  apply Zdigits2_le; [nia|lia|].
  rewrite Z.pow_add_r by lia. nia.
Qed.

Lemma mul_hundred_bounded :
  forall x, finite_below 1001 x -> finite_below 1009 (Float64.mul x hundred).
Proof.
  intros [s|s| |s m e]; cbn [finite_below]; try tauto.
  intros [He HT].
  change (finite_below 1009
            (binary_round_aux Float64.prec Float64.emax (xorb s false)
               (Zpos (m * 7036874417766400)) (e + -46) loc_Exact)).
  assert (Hd : Zdigits2 (Zpos m * 7036874417766400)
               <= Zdigits2 (Zpos m) + Zdigits2 7036874417766400)
    by (apply Zdigits2_mul; lia).
  change (Zdigits2 7036874417766400) with 53 in Hd.
  eapply finite_below_mono;
    [|apply (binary_round_aux_bounded (xorb s false)
               (Zpos (m * 7036874417766400)) (e + -46) loc_Exact 1008);
      try lia].
  - lia.
  - change (Zpos (m * 7036874417766400)) with (Zpos m * 7036874417766400). lia.
Qed.

Lemma round_finite :
  forall T x, finite_below T x -> exists p, Float64.round x = Ok p.
Proof.
  intros T [s|s| |s m e]; simpl; try tauto; intros _; eexists; reflexivity.
Qed.

Lemma percentage_total :
  forall c n, 0 <= c < 2 ^ 1000 -> 0 < n -> exists p, percentage c n = Ok p.
Proof.
  intros c n Hc Hn. unfold percentage, Float64.int_true_divide.
  destruct (Z.eqb_spec n 0) as [|_]; [lia|].
  pose proof (nearest_quotient_bounded c n Hc Hn) as Hq.
  destruct (Float64.nearest_quotient c n) as [s|s| |s m e] eqn:E;
    simpl in Hq; try tauto.
  - cbn [rbind]. rewrite of_int_hundred. cbn [rbind].
    apply (round_finite 1009). apply mul_hundred_bounded. exact I.
  - cbn [rbind]. rewrite of_int_hundred. cbn [rbind].
    apply (round_finite 1009). apply mul_hundred_bounded. exact Hq.
Qed.

Lemma digits2_pos_iter_xO :
  forall d m, digits2_pos (Pos.iter xO m d) = (digits2_pos m + d)%positive.
Proof.
  induction d as [|d IH] using Pos.peano_ind; intros m.
  - simpl. lia.
  - rewrite Pos.iter_succ. simpl. rewrite IH. lia.
Qed.

Lemma of_int_total :
  forall n, 0 <= n < 2 ^ 1000 -> exists x, Float64.of_int n = Ok x.
Proof.
  intros n [Hn0 Hn]. unfold Float64.of_int.
  assert (H : finite_below 1001
                (binary_normalize Float64.prec Float64.emax n 0 false)).
  { destruct n as [|m|m]; [exact I| |lia].
    unfold binary_normalize, binary_round.
    assert (Hd : Zdigits2 (Zpos m) <= 1000) by (apply Zdigits2_le; lia).
    assert (Ha : snd (shl_align m 0 (fexp Float64.prec Float64.emax
                                       (Zpos (digits2_pos m) + 0))) <= 0
                 /\ Zdigits2 (Zpos (fst (shl_align m 0
                       (fexp Float64.prec Float64.emax
                          (Zpos (digits2_pos m) + 0)))))
                    + snd (shl_align m 0 (fexp Float64.prec Float64.emax
                                            (Zpos (digits2_pos m) + 0)))
                    <= Zdigits2 (Zpos m)).
    { unfold shl_align.
      destruct (fexp Float64.prec Float64.emax (Zpos (digits2_pos m) + 0) - 0)
        as [|d|d] eqn:E; cbn [fst snd]; try lia.
      cbn [Zdigits2]. rewrite digits2_pos_iter_xO. lia. }
    destruct (shl_align m 0 _) as [mz ez]. cbn [fst snd] in Ha.
    eapply finite_below_mono;
      [|apply (binary_round_aux_bounded false (Zpos mz) ez loc_Exact 1000);
        lia].
    lia. }
  destruct (binary_normalize Float64.prec Float64.emax n 0 false);
    simpl in H; try tauto; eexists; reflexivity.
Qed.

(** ** The chart *)

Lemma map_result_total :
  forall (A B : Type) (f : A -> Result B) (l : list A),
    Forall (fun a => exists b, f a = Ok b) l ->
    exists bs, map_result f l = Ok bs.
Proof.
  intros A B f. induction l as [|a l IH]; intros H; simpl.
  - now exists [].
  - inversion H as [|? ? [b Hb] Hl]; subst.
    destruct (IH Hl) as [bs Hbs]. exists (b :: bs).
    now rewrite Hb, Hbs.
Qed.

Lemma map_result_Forall2 :
  forall (A B : Type) (f : A -> Result B) (l : list A) (bs : list B),
    map_result f l = Ok bs -> Forall2 (fun a b => f a = Ok b) l bs.
Proof.
  intros A B f. induction l as [|a l IH]; intros bs H; simpl in H.
  - inversion H. constructor.
  - destruct (f a) as [b|e] eqn:Ea; simpl in H; [|discriminate].
    destruct (map_result f l) as [bs'|e] eqn:El; simpl in H; [|discriminate].
    inversion H; subst. constructor; [exact Ea|now apply IH].
Qed.

Lemma percentages_total :
  forall counts n,
    0 < n -> Forall count_in_range (values counts) ->
    exists percentages,
      map_result (fun count => percentage count n) (values counts)
      = Ok percentages.
Proof.
  intros counts n Hn H. apply map_result_total.
  eapply Forall_impl; [|exact H].
  intros c [Hc0 Hc]. apply percentage_total; [|exact Hn].
  split; [exact Hc0|].
  apply Z.lt_trans with (2 ^ 63); [exact Hc|]. now apply Z.pow_lt_mono_r.
Qed.

(** What the function returns once the percentages are computed. *)
Lemma create_supplement_chart_sorted :
  forall counts n percentages,
    counts <> [] ->
    map_result (fun count => percentage count n) (values counts)
    = Ok percentages ->
    exists fig,
      create_supplement_chart counts n = Ok fig
      /\ bars fig = sorted_desc (combine (keys counts) percentages)
      /\ bar_x (fig_data fig) = map snd (bars fig)
      /\ bar_y (fig_data fig) = map fst (bars fig)
      /\ bar_orientation (fig_data fig) = py "h"
      /\ bar_text (fig_data fig) = map percent_label (bar_x (fig_data fig))
      /\ xaxis_range (fig_layout fig) = (0, 100).
Proof.
  intros counts n percentages Hne Hp. unfold create_supplement_chart.
  rewrite Hp. cbn [rbind].
  pose proof (map_result_Forall2 _ _ _ _ _ Hp) as HF.
  apply Forall2_length in HF.
  assert (Hc : combine (keys counts) percentages <> []).
  { unfold values in HF. rewrite length_map in HF.
    destruct counts as [|kv counts]; [congruence|].
    destruct percentages; [discriminate|]. discriminate. }
  apply sorted_desc_nonempty in Hc.
  destruct (sorted_desc (combine (keys counts) percentages)) as [|b sd] eqn:E;
    [congruence|].
  cbn [unzip2 rbind]. eexists. split; [reflexivity|].
  unfold bars. cbn [fig_data fig_layout bar_x bar_y bar_orientation bar_text
                      xaxis_range].
  rewrite combine_fst_snd. repeat split; reflexivity.
Qed.

Lemma In_combine_keys :
  forall (R : Z -> Z -> Prop) counts percentages,
    Forall2 R (values counts) percentages ->
    (forall s c, In (s, c) counts ->
       exists p, R c p /\ In (s, p) (combine (keys counts) percentages))
    /\ (forall s p, In (s, p) (combine (keys counts) percentages) ->
          exists c, In (s, c) counts /\ R c p).
Proof.
  intros R. induction counts as [|[k c0] counts IH]; intros percentages H.
  - split; [intros s c []|intros s p []].
  - simpl in H. inversion H as [|? p0 ? ps HR HF]; subst.
    destruct (IH ps HF) as [IH1 IH2]. simpl. split.
    + intros s c [Heq|Hin].
      * inversion Heq; subst. exists p0. auto.
      * destruct (IH1 s c Hin) as [p [Hp Hi]]. exists p. auto.
    + intros s p [Heq|Hin].
      * inversion Heq; subst. exists c0. auto.
      * destruct (IH2 s p Hin) as [c [Hc Hr]]. exists c. auto.
Qed.

Lemma percentage_Ok_iff :
  forall c n p,
    percentage c n = Ok p
    <-> exists q h,
          Float64.int_true_divide c n = Ok q
          /\ Float64.of_int 100 = Ok h
          /\ Float64.round (Float64.mul q h) = Ok p.
Proof.
  intros c n p. unfold percentage. split.
  - destruct (Float64.int_true_divide c n) as [q|e]; [|discriminate].
    cbn [rbind].
    destruct (Float64.of_int 100) as [h|e]; [|discriminate].
    cbn [rbind]. intros H. now exists q, h.
  - intros (q & h & Hq & Hh & H). rewrite Hq. cbn [rbind].
    rewrite Hh. exact H.
Qed.





(** C4. For every non-empty supplement count map, the bars of the
    chart are a permutation of the (supplement, percentage) pairs, in
    non-increasing order of percentage; they are horizontal and each
    is labelled with its percentage followed by a percent sign. *)
Theorem chart_bars_sorted_permutation :
  forall counts N,
    counts <> [] -> 0 < N -> Forall count_in_range (values counts) ->
    exists percentages fig,
      map_result (fun count => percentage count N) (values counts)
      = Ok percentages
      /\ create_supplement_chart counts N = Ok fig
      /\ Permutation (bars fig) (combine (keys counts) percentages)
      /\ StronglySorted Z.ge (bar_x (fig_data fig))
      /\ bar_orientation (fig_data fig) = py "h"
      /\ bar_text (fig_data fig)
         = map (fun p => str_int p ++ py "%") (bar_x (fig_data fig)).
Proof.
  intros counts N Hne HN Hr.
  destruct (percentages_total counts N HN Hr) as [percentages Hp].
  destruct (create_supplement_chart_sorted counts N percentages Hne Hp)
    as [fig (Hfig & Hbars & Hx & _ & Ho & Ht & _)].
  exists percentages, fig.
  split; [exact Hp|]. split; [exact Hfig|].
  split; [rewrite Hbars; apply sorted_desc_perm|].
  split; [|split; [exact Ho|exact Ht]].
  rewrite Hx, Hbars. apply sorted_map_snd, sorted_desc_sorted.
Qed.

Lemma chart_bars_sorted_permutation_witness :
  exists percentages fig,
    map_result (fun count => percentage count 5)
      (values [(py "Iron", 1); (py "Zinc", 3)])
    = Ok percentages
    /\ create_supplement_chart [(py "Iron", 1); (py "Zinc", 3)] 5 = Ok fig
    /\ Permutation (bars fig)
         (combine (keys [(py "Iron", 1); (py "Zinc", 3)]) percentages)
    /\ StronglySorted Z.ge (bar_x (fig_data fig))
    /\ bar_orientation (fig_data fig) = py "h"
    /\ bar_text (fig_data fig)
       = map (fun p => str_int p ++ py "%") (bar_x (fig_data fig)).
Proof.
  apply (chart_bars_sorted_permutation [(py "Iron", 1); (py "Zinc", 3)] 5).
  - discriminate.
  - lia.
  - repeat constructor; simpl; lia.
Defined.

(** ** Runs of the script *)

Lemma get_supplement_information_run :
  forall user_info w d,
    debug_mode w = Some d ->
    get_supplement_information user_info w
    = (Ok (reply_supplements (api_replies w (length (api_log w)))),
       mkWorld (Some d) (api_replies w) (api_log w ++ [request_of user_info])
         (page w ++ fetch_events d (api_replies w (length (api_log w))))).
Proof.
  intros user_info [dm replies log pg] d Hd. simpl in Hd. subst dm.
  unfold get_supplement_information, try_except, bind, messages_create,
    get_debug_mode, when, st_show, lift, ret, fetch_events, reply_supplements.
  cbn [debug_mode api_replies api_log page].
  destruct (replies (length log)) as [content|e].
  - destruct d; cbn [debug_mode api_replies api_log page];
      destruct (parse_supplement_list content) as [names|e'];
      cbn [debug_mode api_replies api_log page];
      rewrite <- ?app_assoc, ?app_nil_r; reflexivity.
  - cbn [debug_mode api_replies api_log page]. reflexivity.
Qed.

Lemma next_replies_step :
  forall dm replies log pg n dm' req pg',
    next_replies (mkWorld dm replies log pg) (S n)
    = replies (length log)
      :: next_replies (mkWorld dm' replies (log ++ [req]) pg') n.
Proof.
  intros. unfold next_replies. cbn [api_replies api_log seq map].
  rewrite Nat.add_0_r. f_equal.
  rewrite <- seq_shift, map_map. apply map_ext. intros i.
  rewrite length_app. simpl. f_equal. lia.
Qed.

Lemma query_loop_run :
  forall n user_info acc w d,
    debug_mode w = Some d ->
    query_loop n user_info acc w
    = (Ok (acc ++ collected (next_replies w n)),
       mkWorld (Some d) (api_replies w)
         (api_log w ++ repeat (request_of user_info) n)
         (page w ++ loop_events d (next_replies w n))).
Proof.
  induction n as [|n IH]; intros user_info acc w d Hd.
  - destruct w as [dm replies log pg]. simpl in Hd. subst dm.
    unfold next_replies, collected, loop_events. simpl.
    unfold ret. now rewrite !app_nil_r.
  - cbn [query_loop]. unfold bind at 1.
    rewrite (get_supplement_information_run user_info w d Hd).
    destruct w as [dm replies log pg]. simpl in Hd. subst dm.
    cbn [debug_mode api_replies api_log page].
    unfold bind at 1, get_debug_mode at 1. cbn [debug_mode].
    unfold bind at 1.
    rewrite (next_replies_step (Some d) replies log pg n (Some d)
               (request_of user_info)
               (pg ++ turn_events d (replies (length log)))).
    set (o := replies (length log)).
    assert (Hw : when d (st_show (StWrite (DebugApiResponse (reply_supplements o))))
                   (mkWorld (Some d) replies (log ++ [request_of user_info])
                      (pg ++ fetch_events d o))
                 = (Ok tt, mkWorld (Some d) replies (log ++ [request_of user_info])
                             (pg ++ turn_events d o))).
    { unfold turn_events, when, st_show, ret. destruct d; simpl;
        rewrite ?app_nil_r, <- ?app_assoc; reflexivity. }
    rewrite Hw.
    rewrite (IH user_info (acc ++ reply_supplements o)
               (mkWorld (Some d) replies (log ++ [request_of user_info])
                  (pg ++ turn_events d o)) d eq_refl).
    cbn [debug_mode api_replies api_log page].
    unfold collected, loop_events. cbn [map concat].
    rewrite <- !app_assoc. reflexivity.
Qed.



Lemma Counter_values_in_range :
  forall l, list_size_ok l -> Forall count_in_range (values (Counter l)).
Proof.
  intros l Hl. apply Forall_forall. intros c Hc.
  unfold values in Hc. apply in_map_iff in Hc.
  destruct Hc as [[k c'] [Heq Hin]]. simpl in Heq. subst c'.
  pose proof (counter_get_In (Counter l) k c (well_keyed_Counter l) Hin) as Hg.
  rewrite counter_get_Counter in Hg.
  pose proof (count_occ_bound pystr_eq_dec k l) as Hb.
  unfold count_in_range, list_size_ok in *. lia.
Qed.

Lemma chart_of_collected :
  forall l, l <> [] -> list_size_ok l ->
    exists fig,
      create_supplement_chart (Counter l) (Z.of_nat num_queries) = Ok fig.
Proof.
  intros l Hne Hl.
  destruct (percentages_total (Counter l) (Z.of_nat num_queries))
    as [percentages Hp]; [simpl; lia|now apply Counter_values_in_range|].
  destruct (create_supplement_chart_sorted (Counter l) (Z.of_nat num_queries)
              percentages (Counter_nonempty l Hne) Hp) as [fig [Hfig _]].
  now exists fig.
Qed.

Lemma show_results_run :
  forall all w d,
    debug_mode w = Some d -> list_size_ok all ->
    show_results all w
    = (Ok tt, mkWorld (Some d) (api_replies w) (api_log w)
                (page w ++ results_events d all)).
Proof.
  intros all [dm replies log pg] d Hd Hl. simpl in Hd. subst dm.
  destruct all as [|a all].
  - reflexivity.
  - destruct (chart_of_collected (a :: all) ltac:(discriminate) Hl)
      as [fig Hfig].
    unfold show_results, results_events. rewrite Hfig.
    unfold bind, get_debug_mode, when, st_show, lift, ret.
    cbn [debug_mode api_replies api_log page].
    destruct d; cbn [debug_mode api_replies api_log page];
      rewrite <- ?app_assoc; reflexivity.
Qed.

Lemma weight_and_height_total :
  forall inp, valid_form inp ->
    exists weight height, weight_and_height inp = Ok (weight, height).
Proof.
  intros inp (_ & Hl & Hf & Hi & _). unfold weight_and_height.
  destruct (tab1_selected inp); [eexists; eexists; reflexivity|].
  assert (Hbig : 1000 < 2 ^ 1000) by (apply Z.pow_gt_lin_r; lia).
  destruct (of_int_total (weight_lbs inp)) as [x ->]; [lia|].
  destruct (of_int_total (height_ft inp)) as [y ->]; [lia|].
  destruct (of_int_total (height_in inp)) as [z ->]; [lia|].
  eexists; eexists; reflexivity.
Qed.

Lemma main_press_run :
  forall inp debug_box w d weight height,
    debug_mode w = Some d ->
    button inp = true ->
    weight_and_height inp = Ok (weight, height) ->
    list_size_ok (collected (next_replies w num_queries)) ->
    main inp debug_box w
    = (Ok tt,
       mkWorld (Some (match debug_box with Some b => b | None => d end))
         (api_replies w)
         (api_log w
          ++ repeat (request_of (user_info_of inp weight height)) num_queries)
         (page w ++ press_events d (next_replies w num_queries))).
Proof.
  intros inp debug_box [dm replies log pg] d weight height Hd Hb Hwh Hl.
  simpl in Hd. subst dm.
  unfold main, on_button, bind. rewrite Hwh, Hb.
  unfold st_show at 1 2 3, lift at 1.
  cbn [debug_mode api_replies api_log page].
  erewrite query_loop_run by reflexivity.
  cbn [debug_mode api_replies api_log page app].
  change (next_replies _ num_queries)
    with (next_replies (mkWorld (Some d) replies log pg) num_queries).
  set (os := next_replies (mkWorld (Some d) replies log pg) num_queries) in *.
  erewrite show_results_run by (reflexivity || exact Hl).
  unfold st_show, has_debug_mode, when, get_debug_mode, set_debug_mode,
    ret, press_events.
  cbn [debug_mode api_replies api_log page negb].
  repeat rewrite <- app_assoc. reflexivity.
Qed.

Lemma loop_events_no_chart :
  forall d os, filter is_chart (loop_events d os) = [].
Proof.
  intros d. induction os as [|o os IH]; [reflexivity|].
  unfold loop_events in *. cbn [map concat]. rewrite filter_app, IH, app_nil_r.
  unfold turn_events, fetch_events.
  destruct o as [content|e], d; try reflexivity;
    destruct (parse_supplement_list content); reflexivity.
Qed.

Lemma press_events_chart :
  forall d os,
    filter is_chart (press_events d os) = shown_chart (collected os).
Proof.
  intros d os. unfold press_events.
  rewrite !filter_app, loop_events_no_chart.
  unfold results_events, shown_chart.
  destruct (collected os) as [|a all]; [reflexivity|].
  destruct (create_supplement_chart _ _), d; reflexivity.
Qed.

Lemma In_chart_filter :
  forall fig evs,
    In (StPlotlyChart fig) evs <-> In (StPlotlyChart fig) (filter is_chart evs).
Proof.
  intros fig evs. rewrite filter_In. simpl. tauto.
Qed.

Lemma loop_events_not_debug :
  forall d os,
    filter not_debug_line (loop_events d os) = loop_events false os.
Proof.
  intros d. induction os as [|o os IH]; [reflexivity|].
  unfold loop_events in *. cbn [map concat]. rewrite filter_app, IH.
  f_equal. unfold turn_events, fetch_events.
  destruct o as [content|e], d; try reflexivity;
    destruct (parse_supplement_list content); reflexivity.
Qed.

Lemma press_events_not_debug :
  forall d os,
    filter not_debug_line (press_events d os) = press_events false os.
Proof.
  intros d os. unfold press_events.
  rewrite !filter_app, loop_events_not_debug.
  f_equal. f_equal. f_equal.
  unfold results_events.
  destruct (collected os) as [|a all]; [reflexivity|].
  destruct (create_supplement_chart _ _), d; reflexivity.
Qed.

Lemma loop_events_not_unable :
  forall d os, ~ In unable_error (loop_events d os).
Proof.
  intros d. induction os as [|o os IH]; [intros []|].
  unfold loop_events in *. cbn [map concat]. intros Hin.
  apply in_app_or in Hin. destruct Hin as [Hin|Hin]; [|now apply IH].
  unfold turn_events, fetch_events in Hin.
  destruct o as [content|e], d;
    try destruct (parse_supplement_list content);
    simpl in Hin; intuition discriminate.
Qed.

Lemma press_events_unable :
  forall d os, In unable_error (press_events d os) <-> collected os = [].
Proof.
  intros d os. unfold press_events. split.
  - intros Hin. simpl in Hin.
    destruct Hin as [H|[H|[H|Hin]]]; try discriminate.
    apply in_app_or in Hin. destruct Hin as [Hin|Hin];
      [now apply loop_events_not_unable in Hin|].
    apply in_app_or in Hin. destruct Hin as [Hin|Hin];
      [|simpl in Hin; intuition discriminate].
    unfold results_events in Hin.
    destruct (collected os) as [|a all]; [reflexivity|].
    exfalso.
    destruct (create_supplement_chart _ _), d; simpl in Hin;
      intuition discriminate.
  - intros ->. simpl. right. right. right.
    apply in_or_app. right. simpl. now left.
Qed.

Lemma prompt_contains_profile :
  forall user_info,
    exists before after, prompt_of user_info = before ++ user_info ++ after.
Proof.
  intros user_info.
  exists (nl ++ py "    Given the following user information:"
          ++ nl ++ py "    ").
  exists (skipn (length (nl ++ py "    Given the following user information:"
                         ++ nl ++ py "    "))
            (prompt_of [])).
  reflexivity.
Qed.

Lemma all_below_spec :
  forall check n,
    all_below check n = true ->
    forall c, 0 <= c < n -> check c = true.
Proof.
  intros check n H c Hc. unfold all_below in H.
  rewrite forallb_forall in H. apply H.
  apply in_map_iff. exists (Z.to_nat c). split; [lia|].
  apply in_seq. lia.
Qed.

Lemma twenty_per_mention_checked :
  all_below twenty_per_mention 10001 = true.
Proof. vm_compute. reflexivity. Qed.

Lemma chart_bars_of_counts :
  forall counts n fig,
    create_supplement_chart counts n = Ok fig ->
    forall s p, In (s, p) (bars fig) ->
      exists c, In (s, c) counts /\ percentage c n = Ok p.
Proof.
  intros counts n fig Hfig s p Hin.
  destruct (map_result (fun count => percentage count n) (values counts))
    as [percentages|e] eqn:Hp.
  - assert (Hne : counts <> []).
    { intros ->. discriminate. }
    destruct (create_supplement_chart_sorted counts n percentages Hne Hp)
      as [fig' (Hfig' & Hbars & _)].
    rewrite Hfig in Hfig'. inversion Hfig'; subst fig'.
    rewrite Hbars in Hin.
    pose proof (map_result_Forall2 _ _ _ _ _ Hp) as HF.
    destruct (In_combine_keys _ counts percentages HF) as [_ H2].
    apply H2. eapply Permutation_in; [apply sorted_desc_perm|exact Hin].
  - unfold create_supplement_chart in Hfig. rewrite Hp in Hfig. discriminate.
Qed.

Lemma shown_chart_In :
  forall all fig,
    In (StPlotlyChart fig) (shown_chart all) <->
    all <> []
    /\ create_supplement_chart (Counter all) (Z.of_nat num_queries) = Ok fig.
Proof.
  intros all fig. unfold shown_chart. destruct all as [|a all].
  - simpl. split; [intros []|intros [H _]; congruence].
  - destruct (create_supplement_chart _ _) as [fig'|e]; simpl.
    + split.
      * intros [H|[]]. inversion H; subst. split; [discriminate|reflexivity].
      * intros [_ H]. inversion H. now left.
    + split; [intros []|intros [_ H]; discriminate].
Qed.

(** C3. On every button press the same request, carrying the user
    profile, is sent to the API exactly 5 times, and the number of
    requests sent is the denominator of the charted percentages: each
    bar is round(count / sent * 100), the count being the number of
    mentions of the supplement, and for every count up to 10000 the
    value times the number of requests sent is 100 times the count. *)
Theorem button_press_sends_profile_five_times :
  forall inp debug_box w d,
    debug_mode w = Some d ->
    button inp = true ->
    valid_form inp ->
    list_size_ok (collected (next_replies w num_queries)) ->
    exists weight height w' sent shown,
      weight_and_height inp = Ok (weight, height)
      /\ main inp debug_box w = (Ok tt, w')
      /\ api_log w' = api_log w ++ sent
      /\ page w' = page w ++ shown
      /\ length sent = 5%nat
      /\ (forall r, In r sent ->
            r = request_of (user_info_of inp weight height))
      /\ (exists before after,
            req_user_content (request_of (user_info_of inp weight height))
            = before ++ user_info_of inp weight height ++ after)
      /\ (forall fig, In (StPlotlyChart fig) shown ->
            forall s p, In (s, p) (bars fig) ->
              exists c q h,
                In (s, c) (Counter (collected (next_replies w num_queries)))
                /\ c = Z.of_nat
                         (count_occ pystr_eq_dec
                            (collected (next_replies w num_queries)) s)
                /\ Float64.int_true_divide c (Z.of_nat (length sent)) = Ok q
                /\ Float64.of_int 100 = Ok h
                /\ Float64.round (Float64.mul q h) = Ok p
                /\ (c <= 10000 -> p * Z.of_nat (length sent) = 100 * c)).
Proof.
  intros inp debug_box w d Hd Hb Hv Hl.
  destruct (weight_and_height_total inp Hv) as (weight & height & Hwh).
  exists weight, height.
  eexists. exists (repeat (request_of (user_info_of inp weight height)) 5).
  exists (press_events d (next_replies w num_queries)).
  split; [exact Hwh|].
  split; [exact (main_press_run inp debug_box w d weight height Hd Hb Hwh Hl)|].
  cbn [api_log page].
  split; [reflexivity|]. split; [reflexivity|]. split; [reflexivity|].
  split; [intros r Hr; now apply repeat_spec in Hr|].
  split; [apply prompt_contains_profile|].
  intros fig Hfig s p Hin.
  apply In_chart_filter in Hfig. rewrite press_events_chart in Hfig.
  apply shown_chart_In in Hfig. destruct Hfig as [_ Hfig].
  destruct (chart_bars_of_counts _ _ fig Hfig s p Hin) as (c & Hc & Hp).
  change (Z.of_nat
            (length (repeat (request_of (user_info_of inp weight height)) 5)))
    with 5.
  change (Z.of_nat num_queries) with 5 in Hp.
  set (all := collected (next_replies w num_queries)) in *.
  pose proof (counter_get_In (Counter all) s c (well_keyed_Counter all) Hc)
    as Hg.
  rewrite counter_get_Counter in Hg.
  destruct (proj1 (percentage_Ok_iff c 5 p) Hp) as (q & h & Hq & Hh & Hr).
  exists c, q, h.
  split; [exact Hc|]. split; [now symmetry|].
  split; [exact Hq|]. split; [exact Hh|]. split; [exact Hr|].
  intros Hle.
  assert (Ht : twenty_per_mention c = true).
  { apply (all_below_spec twenty_per_mention 10001
             twenty_per_mention_checked). lia. }
  unfold twenty_per_mention in Ht. rewrite Hp in Ht.
  apply Z.eqb_eq in Ht. lia.
Qed.

Lemma button_press_sends_profile_five_times_witness :
  exists weight height w' sent shown,
    weight_and_height imperial_form = Ok (weight, height)
    /\ main imperial_form None example_world = (Ok tt, w')
    /\ api_log w' = api_log example_world ++ sent
    /\ page w' = page example_world ++ shown
    /\ length sent = 5%nat
    /\ (forall r, In r sent ->
          r = request_of (user_info_of imperial_form weight height))
    /\ (exists before after,
          req_user_content
            (request_of (user_info_of imperial_form weight height))
          = before ++ user_info_of imperial_form weight height ++ after)
    /\ (forall fig, In (StPlotlyChart fig) shown ->
          forall s p, In (s, p) (bars fig) ->
            exists c q h,
              In (s, c)
                (Counter (collected (next_replies example_world num_queries)))
              /\ c = Z.of_nat
                       (count_occ pystr_eq_dec
                          (collected (next_replies example_world num_queries))
                          s)
              /\ Float64.int_true_divide c (Z.of_nat (length sent)) = Ok q
              /\ Float64.of_int 100 = Ok h
              /\ Float64.round (Float64.mul q h) = Ok p
              /\ (c <= 10000 -> p * Z.of_nat (length sent) = 100 * c)).
Proof.
  apply (button_press_sends_profile_five_times
           imperial_form None example_world true).
  - reflexivity.
  - reflexivity.
  - unfold valid_form; simpl; lia.
  - vm_compute. reflexivity.
Defined.

Lemma get_supplement_information_never_raises :
  forall user_info w,
    exists names w',
      get_supplement_information user_info w = (Ok names, w')
      /\ (forall e, api_replies w (length (api_log w)) = Failed e ->
                    names = [])
      /\ (forall content e,
            api_replies w (length (api_log w)) = Replied content ->
            parse_supplement_list content = Raise e -> names = []).
Proof.
  intros user_info [dm replies log pg].
  unfold get_supplement_information, try_except, bind, messages_create,
    get_debug_mode, when, st_show, lift, ret.
  cbn [debug_mode api_replies api_log page].
  destruct (replies (length log)) as [content|e].
  - destruct dm as [[|]|]; cbn [debug_mode api_replies api_log page];
      try (destruct (parse_supplement_list content) as [names|e'] eqn:Ep);
      eexists; eexists; (split; [reflexivity|]);
      (split; [discriminate|]); intros c e0 Hc He;
      try reflexivity; inversion Hc; subst; congruence.
  - eexists; eexists. split; [reflexivity|]. split; [reflexivity|].
    discriminate.
Qed.

(** C10. Whatever the API call or the parsing raises,
    get_supplement_information returns the empty list and raises
    nothing; and on a button press the chart is shown exactly when at
    least one mention was collected over the 5 queries, the error
    message exactly when none was, so that the chart is never built
    from an empty count map. *)
Theorem errors_give_no_mentions_and_chart_iff_mentions :
  (forall user_info w,
     exists names w',
       get_supplement_information user_info w = (Ok names, w')
       /\ (forall e, api_replies w (length (api_log w)) = Failed e ->
                     names = [])
       /\ (forall content e,
             api_replies w (length (api_log w)) = Replied content ->
             parse_supplement_list content = Raise e -> names = []))
  /\ (forall inp debug_box w d,
        debug_mode w = Some d ->
        button inp = true ->
        valid_form inp ->
        list_size_ok (collected (next_replies w num_queries)) ->
        exists w' shown,
          main inp debug_box w = (Ok tt, w')
          /\ page w' = page w ++ shown
          /\ ((exists fig, In (StPlotlyChart fig) shown)
              <-> collected (next_replies w num_queries) <> [])
          /\ (In unable_error shown
              <-> collected (next_replies w num_queries) = [])
          /\ (forall fig, In (StPlotlyChart fig) shown ->
                Counter (collected (next_replies w num_queries)) <> []
                /\ create_supplement_chart
                     (Counter (collected (next_replies w num_queries)))
                     (Z.of_nat num_queries) = Ok fig)).
Proof.
  split; [exact get_supplement_information_never_raises|].
  intros inp debug_box w d Hd Hb Hv Hl.
  destruct (weight_and_height_total inp Hv) as (weight & height & Hwh).
  eexists. exists (press_events d (next_replies w num_queries)).
  split; [exact (main_press_run inp debug_box w d weight height Hd Hb Hwh Hl)|].
  cbn [page]. split; [reflexivity|].
  set (all := collected (next_replies w num_queries)) in *.
  split; [|split; [apply press_events_unable|]].
  - split.
    + intros [fig Hfig].
      apply In_chart_filter in Hfig. rewrite press_events_chart in Hfig.
      now apply shown_chart_In in Hfig.
    + intros Hne. destruct (chart_of_collected all Hne Hl) as [fig Hfig].
      exists fig. apply In_chart_filter. rewrite press_events_chart.
      apply shown_chart_In. now split.
  - intros fig Hfig.
    apply In_chart_filter in Hfig. rewrite press_events_chart in Hfig.
    apply shown_chart_In in Hfig. destruct Hfig as [Hne Hfig].
    split; [now apply Counter_nonempty|exact Hfig].
Qed.

Lemma errors_give_no_mentions_and_chart_iff_mentions_witness :
  exists w' shown,
    main imperial_form None example_world = (Ok tt, w')
    /\ page w' = page example_world ++ shown
    /\ ((exists fig, In (StPlotlyChart fig) shown)
        <-> collected (next_replies example_world num_queries) <> [])
    /\ (In unable_error shown
        <-> collected (next_replies example_world num_queries) = [])
    /\ (forall fig, In (StPlotlyChart fig) shown ->
          Counter (collected (next_replies example_world num_queries)) <> []
          /\ create_supplement_chart
               (Counter (collected (next_replies example_world num_queries)))
               (Z.of_nat num_queries) = Ok fig).
Proof.
  apply (proj2 errors_give_no_mentions_and_chart_iff_mentions
           imperial_form None example_world true).
  - reflexivity.
  - reflexivity.
  - unfold valid_form; simpl; lia.
  - vm_compute. reflexivity.
Defined.

(** C7. Two button presses with the same form inputs and the same
    API replies collect the same mentions and show the same page but
    for the debug lines, in particular the same chart, whatever the
    session flag, the earlier requests and the earlier page were. *)
Theorem same_inputs_same_replies_same_chart :
  forall inp box1 box2 w1 w2 d1 d2,
    debug_mode w1 = Some d1 ->
    debug_mode w2 = Some d2 ->
    button inp = true ->
    valid_form inp ->
    next_replies w1 num_queries = next_replies w2 num_queries ->
    list_size_ok (collected (next_replies w1 num_queries)) ->
    exists weight height w1' w2' shown1 shown2 all,
      weight_and_height inp = Ok (weight, height)
      /\ main inp box1 w1 = (Ok tt, w1')
      /\ main inp box2 w2 = (Ok tt, w2')
      /\ page w1' = page w1 ++ shown1
      /\ page w2' = page w2 ++ shown2
      /\ filter not_debug_line shown1 = filter not_debug_line shown2
      /\ filter is_chart shown1 = filter is_chart shown2
      /\ fst (query_loop num_queries (user_info_of inp weight height) [] w1)
         = Ok all
      /\ fst (query_loop num_queries (user_info_of inp weight height) [] w2)
         = Ok all.
Proof.
  intros inp box1 box2 w1 w2 d1 d2 Hd1 Hd2 Hb Hv Hr Hl.
  destruct (weight_and_height_total inp Hv) as (weight & height & Hwh).
  exists weight, height. eexists. eexists.
  exists (press_events d1 (next_replies w1 num_queries)).
  exists (press_events d2 (next_replies w2 num_queries)).
  exists (collected (next_replies w1 num_queries)).
  split; [exact Hwh|].
  split;
    [exact (main_press_run inp box1 w1 d1 weight height Hd1 Hb Hwh Hl)|].
  split;
    [apply (main_press_run inp box2 w2 d2 weight height Hd2 Hb Hwh);
     now rewrite <- Hr|].
  cbn [page]. split; [reflexivity|]. split; [reflexivity|].
  split; [rewrite !press_events_not_debug; now rewrite Hr|].
  split; [rewrite !press_events_chart; now rewrite Hr|].
  rewrite (query_loop_run num_queries _ [] w1 d1 Hd1).
  rewrite (query_loop_run num_queries _ [] w2 d2 Hd2).
  rewrite Hr. split; reflexivity.
Qed.

Lemma same_inputs_same_replies_same_chart_witness :
  exists weight height w1' w2' shown1 shown2 all,
    weight_and_height imperial_form = Ok (weight, height)
    /\ main imperial_form None example_world = (Ok tt, w1')
    /\ main imperial_form (Some true) example_world_later = (Ok tt, w2')
    /\ page w1' = page example_world ++ shown1
    /\ page w2' = page example_world_later ++ shown2
    /\ filter not_debug_line shown1 = filter not_debug_line shown2
    /\ filter is_chart shown1 = filter is_chart shown2
    /\ fst (query_loop num_queries (user_info_of imperial_form weight height)
              [] example_world) = Ok all
    /\ fst (query_loop num_queries (user_info_of imperial_form weight height)
              [] example_world_later) = Ok all.
Proof.
  apply (same_inputs_same_replies_same_chart
           imperial_form None (Some true) example_world example_world_later
           true false).
  - reflexivity.
  - reflexivity.
  - reflexivity.
  - unfold valid_form; simpl; lia.
  - reflexivity.
  - vm_compute. reflexivity.
Defined.

(** ** The session, and two presses evaluated *)

Lemma main_idle_run :
  forall inp debug_box w weight height,
    button inp = false ->
    weight_and_height inp = Ok (weight, height) ->
    main inp debug_box w
    = (Ok tt,
       mkWorld
         (Some (match debug_box with
                | Some b => b
                | None => match debug_mode w with
                          | Some d => d
                          | None => false
                          end
                end))
         (api_replies w) (api_log w)
         (page w ++ [title; intro; about_title; about])).
Proof.
  intros inp debug_box [dm replies log pg] weight height Hb Hwh.
  unfold main, bind. rewrite Hwh, Hb.
  unfold st_show, lift, ret, has_debug_mode, when, get_debug_mode,
    set_debug_mode.
  cbn [debug_mode api_replies api_log page].
  destruct dm as [d|]; cbn [negb debug_mode api_replies api_log page];
    repeat rewrite <- app_assoc; reflexivity.
Qed.

Lemma bind_Ok_inv :
  forall (A B : Type) (m : M A) (f : A -> M B) w b w',
    bind m f w = (Ok b, w') ->
    exists a w1, m w = (Ok a, w1) /\ f a w1 = (Ok b, w').
Proof.
  intros A B m f w b w' H. unfold bind in H.
  destruct (m w) as [[a|e] w1]; [|discriminate].
  now exists a, w1.
Qed.

(** Every run that ends leaves [debug_mode] set: a press of the button,
    which needs a page already drawn, finds it set. *)
Lemma main_sets_debug_mode :
  forall inp debug_box w w',
    main inp debug_box w = (Ok tt, w') -> debug_mode w' <> None.
Proof.
  intros inp debug_box w w' H. unfold main in H.
  apply bind_Ok_inv in H. destruct H as (u1 & w1 & _ & H).
  apply bind_Ok_inv in H. destruct H as (u2 & w2 & _ & H).
  apply bind_Ok_inv in H. destruct H as ([weight height] & w3 & _ & H).
  apply bind_Ok_inv in H. destruct H as (u4 & w4 & _ & H).
  apply bind_Ok_inv in H. destruct H as (u5 & w5 & _ & H).
  apply bind_Ok_inv in H. destruct H as (u6 & w6 & _ & H).
  apply bind_Ok_inv in H. destruct H as (present & w7 & _ & H).
  apply bind_Ok_inv in H. destruct H as (u8 & w8 & _ & H).
  apply bind_Ok_inv in H. destruct H as (current & w9 & _ & H).
  unfold set_debug_mode in H. inversion H. discriminate.
Qed.

Lemma tab1_selected_uses_metric_fields :
  forall inp,
    tab1_selected inp = true ->
    weight_and_height inp = Ok (PyInt (weight_kg inp), PyInt (height_cm inp)).
Proof. intros inp H. unfold weight_and_height. now rewrite H. Qed.

(** C6 (the code departs from it). With the Imperial tab selected and
    200 lbs, 6 ft 0 in entered there, the profile carries the Metric
    tab's 70 kg and 170 cm; the conversion of the imperial entries
    (90.7 kg, 182.9 cm) is what the other branch computes. *)
Theorem imperial_tab_profile_carries_metric_fields :
  weight_and_height imperial_form = Ok (PyInt 70, PyInt 170)
  /\ api_log (snd (main imperial_form None doubled_world))
     = repeat (request_of (py "Age: 30, Gender: Male, Weight: 70kg, Height: 170cm, Activity Level: Sedentary, Dietary Preference: Omnivore, Health Interests: sleep")) 5
  /\ user_info_of imperial_form (PyInt 70) (PyInt 170)
     = py "Age: 30, Gender: Male, Weight: 70kg, Height: 170cm, Activity Level: Sedentary, Dietary Preference: Omnivore, Health Interests: sleep"
  /\ exists weight height,
       weight_and_height imperial_form_unselected = Ok (weight, height)
       /\ user_info_of imperial_form_unselected weight height
          = py "Age: 30, Gender: Male, Weight: 90.7kg, Height: 182.9cm, Activity Level: Sedentary, Dietary Preference: Omnivore, Health Interests: sleep".
Proof.
  split; [reflexivity|]. split; [vm_compute; reflexivity|].
  split; [vm_compute; reflexivity|].
  eexists. eexists. split; [vm_compute; reflexivity|].
  vm_compute. reflexivity.
Qed.

(** C5 (the code departs from it). When every one of the 5 replies
    names zinc twice, the press shows a chart whose zinc bar is 200
    long, on an axis fixed to the range 0 to 100. *)
Theorem repeated_mention_exceeds_axis :
  exists fig,
    In (StPlotlyChart fig) (page (snd (main imperial_form None doubled_world)))
    /\ bars fig = [(py "Zinc", 200)]
    /\ xaxis_range (fig_layout fig) = (0, 100).
Proof.
  eexists. split.
  - vm_compute. repeat (first [left; reflexivity | right]).
  - split; vm_compute; reflexivity.
Qed.

(** * Further properties *)

(** ** More on the parser *)

Lemma substring_refl : forall s, substring s s.
Proof. intros s. exists [], []. now rewrite app_nil_r. Qed.

Lemma substring_trans :
  forall a b c, substring a b -> substring b c -> substring a c.
Proof.
  intros a b c (p & q & ->) (p' & q' & ->).
  exists (p' ++ p), (q ++ q'). now rewrite <- !app_assoc.
Qed.

Lemma strip_substring : forall s, substring (strip s) s.
Proof.
  intros s. unfold strip.
  destruct (lstrip_suffix s) as [pre Hpre].
  destruct (rstrip_prefix (lstrip s)) as [suf Hsuf].
  exists pre, suf. rewrite <- Hsuf. exact Hpre.
Qed.

Lemma join_substring :
  forall sep pieces p, In p pieces -> substring p (join sep pieces).
Proof.
  intros sep. induction pieces as [|q rest IH]; intros p Hin; [contradiction|].
  destruct rest as [|q' rest].
  - destruct Hin as [->|[]]. apply substring_refl.
  - rewrite join_cons. destruct Hin as [->|Hin].
    + exists [], (sep :: join sep (q' :: rest)). reflexivity.
    + destruct (IH p Hin) as (b & a & E).
      exists (q ++ sep :: b), a. rewrite E. now rewrite <- app_assoc.
Qed.

Lemma substring_no_char :
  forall (c : N) a b, substring a b -> ~ In c b -> ~ In c a.
Proof.
  intros c a b (p & q & ->) H Hin. apply H.
  apply in_or_app. right. apply in_or_app. now left.
Qed.

(** X1. Every name the parser returns is a run of consecutive characters
    of the text, and holds no comma. *)
Theorem parse_supplement_list_names_from_text :
  forall v text,
    text_of v = Some text ->
    exists names,
      parse_supplement_list v = Ok names
      /\ Forall (fun name => substring name text /\ ~ In comma name) names.
Proof.
  intros v text H. rewrite (parse_supplement_list_text v text H).
  eexists. split; [reflexivity|].
  apply Forall_forall. intros name Hin.
  apply filter_In in Hin. destruct Hin as [Hin _].
  apply in_map_iff in Hin. destruct Hin as [item [<- Hitem]].
  split.
  - apply substring_trans with item; [apply strip_substring|].
    pose proof (join_substring comma _ _ Hitem) as J.
    now rewrite join_split in J.
  - apply substring_no_char with item; [apply strip_substring|].
    pose proof (split_pieces comma text) as Hp.
    rewrite Forall_forall in Hp. now apply Hp.
Qed.

Lemma parse_supplement_list_names_from_text_witness :
  exists names,
    parse_supplement_list (PyStr (py "Zinc , Iron")) = Ok names
    /\ Forall (fun name => substring name (py "Zinc , Iron")
                           /\ ~ In comma name) names.
Proof.
  apply (parse_supplement_list_names_from_text (PyStr (py "Zinc , Iron"))
           (py "Zinc , Iron")).
  reflexivity.
Defined.

Lemma split_no_sep : forall sep p, ~ In sep p -> split sep p = [p].
Proof.
  intros sep. induction p as [|c p IH]; intros H; [reflexivity|].
  simpl. destruct (N.eqb_spec c sep) as [->|Hne].
  - exfalso. apply H. now left.
  - rewrite IH; [reflexivity|]. intros Hin. apply H. now right.
Qed.

Lemma split_app_sep :
  forall sep p t, ~ In sep p -> split sep (p ++ sep :: t) = p :: split sep t.
Proof.
  intros sep. induction p as [|c p IH]; intros t H.
  - simpl. now rewrite N.eqb_refl.
  - simpl. destruct (N.eqb_spec c sep) as [->|Hne].
    + exfalso. apply H. now left.
    + rewrite IH; [reflexivity|]. intros Hin. apply H. now right.
Qed.

Lemma split_join :
  forall sep pieces,
    pieces <> [] -> Forall (fun p => ~ In sep p) pieces ->
    split sep (join sep pieces) = pieces.
Proof.
  intros sep. induction pieces as [|p rest IH]; intros Hne H; [congruence|].
  inversion H as [|? ? Hp Hrest]; subst.
  destruct rest as [|q rest].
  - simpl. now apply split_no_sep.
  - rewrite join_cons, split_app_sep by assumption.
    f_equal. apply IH; [discriminate|assumption].
Qed.

Lemma lstrip_id : forall s, starts_with_space s = false -> lstrip s = s.
Proof. intros [|c s] H; [reflexivity|]. simpl in *. now rewrite H. Qed.

Lemma strip_id : forall s, clean_name s -> strip s = s.
Proof.
  intros s (_ & Hs & He). unfold strip, rstrip.
  rewrite (lstrip_id s Hs).
  unfold ends_with_space in He. rewrite (lstrip_id (rev s) He).
  apply rev_involutive.
Qed.

Lemma map_strip_clean :
  forall names, Forall clean_name names ->
    map strip (filter (fun item => truthy (strip item)) names) = names.
Proof.
  induction names as [|n names IH]; intros H; [reflexivity|].
  inversion H as [|? ? Hn Hr]; subst. cbn [filter].
  rewrite (strip_id n Hn).
  assert (Ht : truthy n = true) by (apply truthy_nonempty; apply Hn).
  rewrite Ht. cbn [map]. rewrite (strip_id n Hn). f_equal. now apply IH.
Qed.

(** X2. Parsing is a round trip on its own output: the names joined by
    commas parse back to the same names. *)
Theorem parse_supplement_list_round_trip :
  forall v text,
    text_of v = Some text ->
    exists names,
      parse_supplement_list v = Ok names
      /\ parse_supplement_list (PyStr (join comma names)) = Ok names.
Proof.
  intros v text H.
  destruct (parse_supplement_list_names_from_text v text H)
    as (names & Hp & Hsub).
  exists names. split; [exact Hp|].
  assert (Hclean : Forall clean_name names).
  { rewrite (parse_supplement_list_text v text H) in Hp.
    inversion Hp. apply Forall_forall. intros name Hin.
    apply filter_In in Hin. destruct Hin as [Hin Ht].
    apply in_map_iff in Hin. destruct Hin as [item [<- _]].
    now apply strip_clean. }
  unfold parse_supplement_list. cbn [rbind].
  destruct names as [|n names]; [reflexivity|].
  rewrite split_join.
  - now rewrite map_strip_clean.
  - discriminate.
  - eapply Forall_impl; [|exact Hsub]. intros a [_ Ha]. exact Ha.
Qed.

Lemma parse_supplement_list_round_trip_witness :
  exists names,
    parse_supplement_list (PyList [NoText (py " Zinc ,, Iron")]) = Ok names
    /\ parse_supplement_list (PyStr (join comma names)) = Ok names.
Proof.
  apply (parse_supplement_list_round_trip
           (PyList [NoText (py " Zinc ,, Iron")]) (py " Zinc ,, Iron")).
  reflexivity.
Defined.

Lemma lstrip_nil_iff : forall s, lstrip s = [] <-> blank s.
Proof.
  unfold blank. induction s as [|c s IH]; simpl.
  - split; [constructor|reflexivity].
  - destruct (is_space c) eqn:Hc.
    + rewrite IH. split; [now constructor|].
      intros H. now inversion H.
    + split; [discriminate|]. intros H. inversion H. congruence.
Qed.

Lemma blank_rev : forall s, blank (rev s) <-> blank s.
Proof.
  intros s. unfold blank. split; intros H.
  - rewrite <- (rev_involutive s). now apply Forall_rev.
  - now apply Forall_rev.
Qed.

Lemma strip_nil_iff : forall s, strip s = [] <-> blank s.
Proof.
  intros s. unfold strip, rstrip. split.
  - intros H.
    assert (H' : lstrip (rev (lstrip s)) = []).
    { rewrite <- (rev_involutive (lstrip _)), H. reflexivity. }
    apply lstrip_nil_iff in H'. apply (proj1 (blank_rev _)) in H'.
    apply lstrip_nil_iff.
    pose proof (lstrip_starts s) as Hs.
    revert H' Hs. unfold blank.
    destruct (lstrip s) as [|c t]; [reflexivity|].
    intros H' Hs. inversion H'; subst.
    cbn [starts_with_space] in Hs. congruence.
  - intros H. apply lstrip_nil_iff in H. now rewrite H.
Qed.

Lemma names_nil_iff :
  forall items,
    map strip (filter (fun item => truthy (strip item)) items) = []
    <-> Forall blank items.
Proof.
  induction items as [|p items IH]; simpl.
  - split; [constructor|reflexivity].
  - destruct (strip p) as [|c t] eqn:E; simpl.
    + rewrite IH. split.
      * intros H. constructor; [now apply strip_nil_iff|exact H].
      * intros H. now inversion H.
    + split; [rewrite E; discriminate|].
      intros H. inversion H as [|? ? Hb _]; subst.
      apply strip_nil_iff in Hb. congruence.
Qed.

Lemma split_blank_iff :
  forall s,
    Forall blank (split comma s)
    <-> Forall (fun c => c = comma \/ is_space c = true) s.
Proof.
  induction s as [|c s IH]; simpl.
  - split; intros _; repeat constructor.
  - destruct (N.eqb_spec c comma) as [->|Hne].
    + split.
      * intros H. inversion H; subst. constructor; [now left|now apply IH].
      * intros H. inversion H; subst. constructor; [constructor|now apply IH].
    + pose proof (split_nonempty comma s) as Hn.
      destruct (split comma s) as [|p rest]; [congruence|].
      split.
      * intros H. inversion H as [|? ? Hp Hr]; subst.
        inversion Hp as [|? ? Hc Hp']; subst.
        constructor; [now right|]. apply IH. now constructor.
      * intros H. inversion H as [|? ? Hc Hs]; subst.
        apply IH in Hs. inversion Hs as [|? ? Hp Hr]; subst.
        destruct Hc as [Hc|Hc]; [congruence|].
        constructor; [now constructor|exact Hr].
Qed.

(** X3. The parser returns the empty list exactly when the text holds
    nothing but commas and whitespace. *)
Theorem parse_supplement_list_empty_iff :
  forall v text,
    text_of v = Some text ->
    (parse_supplement_list v = Ok []
     <-> Forall (fun c => c = comma \/ is_space c = true) text).
Proof.
  intros v text H. rewrite <- split_blank_iff, <- names_nil_iff.
  unfold parse_supplement_list.
  destruct v as [s|[|[t|s|ty|e0] items]|t]; simpl in H; inversion H; subst;
    cbn [rbind]; split; intros E; try (inversion E; reflexivity);
    now rewrite E.
Qed.

Lemma parse_supplement_list_empty_iff_witness :
  parse_supplement_list (PyStr (py " , ,")) = Ok []
  <-> Forall (fun c => c = comma \/ is_space c = true) (py " , ,").
Proof.
  apply (parse_supplement_list_empty_iff (PyStr (py " , ,")) (py " , ,")).
  reflexivity.
Defined.

(** ** More on counting *)

Lemma total_incr : forall k c, total (counter_incr k c) = total c + 1.
Proof.
  intros k. unfold total. induction c as [|[k0 n] c IH]; simpl; [lia|].
  destruct (pystr_eq_dec k k0); simpl; lia.
Qed.

Lemma total_fold :
  forall l acc,
    total (fold_left (fun c x => counter_incr x c) l acc)
    = total acc + Z.of_nat (length l).
Proof.
  induction l as [|x l IH]; intros acc; simpl; [lia|].
  rewrite IH, total_incr. lia.
Qed.

(** X4. The counts add up to the number of mentions, and every entry
    counts at least one. *)
Theorem Counter_total_is_length :
  forall l,
    total (Counter l) = Z.of_nat (length l)
    /\ Forall (fun n => 1 <= n) (values (Counter l)).
Proof.
  intros l. split.
  - unfold Counter. rewrite total_fold. reflexivity.
  - apply Forall_forall. intros n Hn.
    unfold values in Hn. apply in_map_iff in Hn.
    destruct Hn as [[k n'] [Heq Hin]]. simpl in Heq. subst n'.
    pose proof (counter_get_In (Counter l) k n (well_keyed_Counter l) Hin) as Hg.
    rewrite counter_get_Counter in Hg.
    assert (Hk : In k l).
    { assert (Hk' : In k (keys (Counter l)))
        by (apply in_map_iff; now exists (k, n)).
      unfold Counter in Hk'. rewrite keys_fold in Hk'. simpl in Hk'. tauto. }
    apply (count_occ_In pystr_eq_dec) in Hk. lia.
Qed.

Lemma keys_incr_eq :
  forall k c,
    keys (counter_incr k c)
    = if existsb (same_name k) (keys c) then keys c else keys c ++ [k].
Proof.
  intros k. induction c as [|[k0 n] c IH]; simpl; [reflexivity|].
  unfold same_name at 1.
  destruct (pystr_eq_dec k k0) as [->|Hk]; simpl; [reflexivity|].
  rewrite IH. now destruct (existsb (same_name k) (keys c)).
Qed.

Lemma same_name_true : forall a b, same_name a b = true <-> a = b.
Proof.
  intros a b. unfold same_name.
  destruct (pystr_eq_dec a b); split; congruence.
Qed.

Lemma existsb_same_name :
  forall k l, existsb (same_name k) l = true <-> In k l.
Proof.
  intros k l. rewrite existsb_exists. split.
  - intros [x [Hin Hx]]. apply same_name_true in Hx. now subst.
  - intros Hin. exists k. split; [exact Hin|]. now apply same_name_true.
Qed.

Lemma filter_filter :
  forall (A : Type) (f g : A -> bool) (l : list A),
    filter f (filter g l) = filter (fun x => g x && f x) l.
Proof.
  intros A f g. induction l as [|a l IH]; simpl; [reflexivity|].
  destruct (g a); simpl; [destruct (f a)|]; now rewrite IH.
Qed.

Lemma keys_fold_order :
  forall l acc,
    keys (fold_left (fun c x => counter_incr x c) l acc)
    = keys acc
      ++ filter (fun y => negb (existsb (same_name y) (keys acc)))
           (first_mentions l).
Proof.
  induction l as [|x l IH]; intros acc; simpl; [now rewrite app_nil_r|].
  rewrite IH, keys_incr_eq.
  destruct (existsb (same_name x) (keys acc)) eqn:Ex; simpl.
  - f_equal. rewrite filter_filter. apply filter_ext_in. intros y _.
    destruct (same_name x y) eqn:Exy; simpl; [|reflexivity].
    apply same_name_true in Exy. subst y. now rewrite Ex.
  - rewrite <- app_assoc. simpl. f_equal. f_equal.
    rewrite filter_filter. apply filter_ext. intros y.
    rewrite existsb_app. simpl. rewrite orb_false_r, negb_orb.
    assert (E : same_name y x = same_name x y).
    { unfold same_name. destruct (pystr_eq_dec y x), (pystr_eq_dec x y);
        congruence. }
    rewrite E. apply andb_comm.
Qed.

(** X5. The entries of the counter are in the order in which the names
    were first mentioned. *)
Theorem Counter_keys_in_order_of_first_mention :
  forall l, keys (Counter l) = first_mentions l.
Proof.
  intros l. unfold Counter. rewrite keys_fold_order. simpl.
  induction (first_mentions l) as [|y ys IH]; simpl; congruence.
Qed.

(** ** More on the chart *)

(** X6. With 5 queries the charted value is exactly 20 per mention, for
    every count up to 10000: the floating-point division and product
    lose nothing. *)
Theorem percentage_of_five_queries :
  forall c, 0 <= c <= 10000 -> percentage c 5 = Ok (20 * c).
Proof.
  intros c Hc.
  assert (H : twenty_per_mention c = true).
  { apply (all_below_spec twenty_per_mention 10001
             twenty_per_mention_checked). lia. }
  unfold twenty_per_mention in H.
  destruct (percentage c 5) as [p|e]; [|discriminate].
  apply Z.eqb_eq in H. now subst.
Qed.

Lemma percentage_of_five_queries_witness : percentage 7 5 = Ok (20 * 7).
Proof. apply (percentage_of_five_queries 7). lia. Defined.

(** X7. With no counts the function raises ValueError, whatever the
    number of queries (nothing is divided, the unpacking fails); with
    counts and zero queries it raises ZeroDivisionError. *)
Theorem create_supplement_chart_errors :
  (forall n, exists e,
      create_supplement_chart [] n = Raise e /\ exc_class e = ValueError)
  /\ (forall counts, counts <> [] ->
        exists e, create_supplement_chart counts 0 = Raise e
                  /\ exc_class e = ZeroDivisionError).
Proof.
  split.
  - intros n. eexists. split; reflexivity.
  - intros [|[k c] counts] H; [congruence|].
    eexists. split; reflexivity.
Qed.

Lemma create_supplement_chart_errors_witness :
  exists e,
    create_supplement_chart [(py "Zinc", 3)] 0 = Raise e
    /\ exc_class e = ZeroDivisionError.
Proof.
  apply (proj2 create_supplement_chart_errors [(py "Zinc", 3)]).
  discriminate.
Defined.

Lemma create_supplement_chart_layout :
  forall counts n percentages,
    counts <> [] ->
    map_result (fun count => percentage count n) (values counts)
    = Ok percentages ->
    exists fig,
      create_supplement_chart counts n = Ok fig
      /\ height (fig_layout fig) = 400 + 20 * Z.of_nat (length counts).
Proof.
  intros counts n percentages Hne Hp. unfold create_supplement_chart.
  rewrite Hp. cbn [rbind].
  pose proof (map_result_Forall2 _ _ _ _ _ Hp) as HF.
  apply Forall2_length in HF. unfold values in HF. rewrite length_map in HF.
  assert (Hc : combine (keys counts) percentages <> []).
  { destruct counts as [|kv counts]; [congruence|].
    destruct percentages; discriminate. }
  apply sorted_desc_nonempty in Hc.
  destruct (sorted_desc (combine (keys counts) percentages)) as [|b sd] eqn:E;
    [congruence|].
  cbn [unzip2 rbind]. eexists. split; [reflexivity|].
  change (400 + Z.of_nat (length (keys counts)) * 20
          = 400 + 20 * Z.of_nat (length counts)).
  unfold keys. rewrite length_map. lia.
Qed.

(** X8. The figure has one bar per supplement: the lengths, names and
    labels handed to the plot are as many as the map has entries, and
    the height is 400 plus 20 per supplement. *)
Theorem chart_has_one_bar_per_supplement :
  forall counts N,
    counts <> [] -> 0 < N -> Forall count_in_range (values counts) ->
    exists fig,
      create_supplement_chart counts N = Ok fig
      /\ length (bar_x (fig_data fig)) = length counts
      /\ length (bar_y (fig_data fig)) = length counts
      /\ length (bar_text (fig_data fig)) = length counts
      /\ height (fig_layout fig) = 400 + 20 * Z.of_nat (length counts).
Proof.
  intros counts N Hne HN Hr.
  destruct (percentages_total counts N HN Hr) as [percentages Hp].
  destruct (create_supplement_chart_layout counts N percentages Hne Hp)
    as [fig (Hfig & Hh)].
  destruct (create_supplement_chart_sorted counts N percentages Hne Hp)
    as [fig' (Hfig' & Hbars & Hx & Hy & _ & Ht & _)].
  rewrite Hfig in Hfig'. inversion Hfig'; subst fig'.
  exists fig. split; [exact Hfig|].
  pose proof (map_result_Forall2 _ _ _ _ _ Hp) as HF.
  apply Forall2_length in HF. unfold values in HF. rewrite length_map in HF.
  assert (Hl : length (bars fig) = length counts).
  { rewrite Hbars, (Permutation_length (sorted_desc_perm _)), length_combine.
    unfold keys. rewrite length_map. lia. }
  rewrite Ht, Hx, Hy, !length_map. auto.
Qed.

Lemma chart_has_one_bar_per_supplement_witness :
  exists fig,
    create_supplement_chart [(py "Iron", 1); (py "Zinc", 3)] 5 = Ok fig
    /\ length (bar_x (fig_data fig))
       = length [(py "Iron", 1); (py "Zinc", 3)]
    /\ length (bar_y (fig_data fig))
       = length [(py "Iron", 1); (py "Zinc", 3)]
    /\ length (bar_text (fig_data fig))
       = length [(py "Iron", 1); (py "Zinc", 3)]
    /\ height (fig_layout fig)
       = 400 + 20 * Z.of_nat (length [(py "Iron", 1); (py "Zinc", 3)]).
Proof.
  apply (chart_has_one_bar_per_supplement [(py "Iron", 1); (py "Zinc", 3)] 5).
  - discriminate.
  - lia.
  - repeat constructor; simpl; lia.
Defined.

(** X9. Bars of equal length keep the order their supplements have in the
    count map. *)
Theorem chart_ties_keep_map_order :
  forall counts N,
    counts <> [] -> 0 < N -> Forall count_in_range (values counts) ->
    exists percentages fig,
      map_result (fun count => percentage count N) (values counts)
      = Ok percentages
      /\ create_supplement_chart counts N = Ok fig
      /\ forall v,
           filter (fun bar => snd bar =? v) (bars fig)
           = filter (fun bar => snd bar =? v)
               (combine (keys counts) percentages).
Proof.
  intros counts N Hne HN Hr.
  destruct (percentages_total counts N HN Hr) as [percentages Hp].
  destruct (create_supplement_chart_sorted counts N percentages Hne Hp)
    as [fig (Hfig & Hbars & _)].
  exists percentages, fig. split; [exact Hp|]. split; [exact Hfig|].
  intros v. rewrite Hbars. apply sorted_desc_stable.
Qed.

Lemma chart_ties_keep_map_order_witness :
  exists percentages fig,
    map_result (fun count => percentage count 5)
      (values [(py "Iron", 1); (py "Zinc", 3); (py "Magnesium", 1)])
    = Ok percentages
    /\ create_supplement_chart
         [(py "Iron", 1); (py "Zinc", 3); (py "Magnesium", 1)] 5 = Ok fig
    /\ forall v,
         filter (fun bar => snd bar =? v) (bars fig)
         = filter (fun bar => snd bar =? v)
             (combine
                (keys [(py "Iron", 1); (py "Zinc", 3); (py "Magnesium", 1)])
                percentages).
Proof.
  apply (chart_ties_keep_map_order
           [(py "Iron", 1); (py "Zinc", 3); (py "Magnesium", 1)] 5).
  - discriminate.
  - lia.
  - repeat constructor; simpl; lia.
Defined.

(** ** The conversion of the Imperial inputs *)

Lemma same_float_eq :
  forall x y, Float64.same_float x y = true -> x = y.
Proof.
  intros [sx|sx| |sx mx ex] [sy|sy| |sy my ey] H; simpl in H;
    try discriminate.
  apply andb_prop in H. destruct H as [H He].
  apply andb_prop in H. destruct H as [Hs Hm].
  apply Bool.eqb_prop in Hs. apply Pos.eqb_eq in Hm. apply Z.eqb_eq in He.
  now subst.
Qed.

Lemma weights_checked :
  all_below (fun i => weight_exact (66 + i)) 595 = true.
Proof. vm_compute. reflexivity. Qed.

Lemma heights_checked :
  all_below (fun i => height_exact (3 + i / 12) (i mod 12)) 72 = true.
Proof. vm_compute. reflexivity. Qed.

(** X10. When [tab1.selected] is false, every weight and height the
    Imperial inputs allow is converted without floating-point error:
    the result is the exact product rounded to one decimal. *)
Theorem imperial_conversion_is_exact :
  forall inp,
    valid_form inp ->
    tab1_selected inp = false ->
    weight_and_height inp
    = Ok (PyFloat (one_decimal (kg_tenths (weight_lbs inp))),
          PyFloat (one_decimal (cm_tenths (height_ft inp) (height_in inp)))).
Proof.
  intros inp (_ & Hl & Hf & Hi & _) Ht. unfold weight_and_height. rewrite Ht.
  assert (Hw : weight_exact (weight_lbs inp) = true).
  { replace (weight_lbs inp) with (66 + (weight_lbs inp - 66)) by lia.
    apply (all_below_spec (fun i => weight_exact (66 + i)) 595
             weights_checked). lia. }
  assert (Hh : height_exact (height_ft inp) (height_in inp) = true).
  { set (i := (height_ft inp - 3) * 12 + height_in inp).
    assert (Ei : 0 <= i < 72) by (unfold i; lia).
    pose proof (all_below_spec
                  (fun i => height_exact (3 + i / 12) (i mod 12)) 72
                  heights_checked i Ei) as H.
    cbv beta in H.
    replace (i / 12) with (height_ft inp - 3) in H
      by (unfold i; apply Z.div_unique with (height_in inp); lia).
    replace (i mod 12) with (height_in inp) in H
      by (unfold i; apply Z.mod_unique with (height_ft inp - 3); lia).
    replace (3 + (height_ft inp - 3)) with (height_ft inp) in H by lia.
    exact H. }
  unfold weight_exact in Hw. unfold height_exact in Hh.
  destruct (Float64.of_int (weight_lbs inp)) as [x|e]; [|discriminate].
  destruct (Float64.of_int (height_ft inp)) as [y|e]; [|discriminate].
  destruct (Float64.of_int (height_in inp)) as [z|e]; [|discriminate].
  apply same_float_eq in Hw. apply same_float_eq in Hh.
  cbn [rbind]. now rewrite Hw, Hh.
Qed.

Lemma imperial_conversion_is_exact_witness :
  weight_and_height imperial_form_unselected
  = Ok (PyFloat (one_decimal (kg_tenths (weight_lbs imperial_form_unselected))),
        PyFloat (one_decimal (cm_tenths (height_ft imperial_form_unselected)
                                (height_in imperial_form_unselected)))).
Proof.
  apply (imperial_conversion_is_exact imperial_form_unselected).
  - unfold valid_form; simpl; lia.
  - reflexivity.
Defined.

(** ** What every run leaves in place *)

Lemma grows_by_refl : forall req w, grows_by req 0 w w.
Proof.
  intros req w. split; [reflexivity|]. split.
  - exists 0%nat. split; [lia|]. simpl. now rewrite app_nil_r.
  - exists []. now rewrite app_nil_r.
Qed.

Lemma grows_by_trans :
  forall req a b w w1 w2,
    grows_by req a w w1 -> grows_by req b w1 w2 ->
    grows_by req (a + b) w w2.
Proof.
  intros req a b w w1 w2 (R1 & (k1 & L1 & E1) & (v1 & P1))
         (R2 & (k2 & L2 & E2) & (v2 & P2)).
  split; [congruence|]. split.
  - exists (k1 + k2)%nat. split; [lia|].
    rewrite E2, E1, <- app_assoc, repeat_app. reflexivity.
  - exists (v1 ++ v2). rewrite P2, P1, <- app_assoc. reflexivity.
Qed.

Lemma grows_by_weaken :
  forall req a b w w', (a <= b)%nat -> grows_by req a w w' ->
                       grows_by req b w w'.
Proof.
  intros req a b w w' Hab (R & (k & L & E) & P).
  split; [exact R|]. split; [|exact P]. exists k. split; [lia|exact E].
Qed.

Lemma sends_weaken :
  forall (A : Type) req a b (m : M A),
    (a <= b)%nat -> sends_at_most req a m -> sends_at_most req b m.
Proof.
  intros A req a b m Hab H w. eapply grows_by_weaken; [exact Hab|apply H].
Qed.

Lemma sends_ret : forall (A : Type) req (a : A), sends_at_most req 0 (ret a).
Proof. intros A req a w. apply grows_by_refl. Qed.

Lemma sends_lift :
  forall (A : Type) req (r : Result A), sends_at_most req 0 (lift r).
Proof. intros A req r w. apply grows_by_refl. Qed.

Lemma sends_st_show : forall req ev, sends_at_most req 0 (st_show ev).
Proof.
  intros req ev w. split; [reflexivity|]. split.
  - exists 0%nat. split; [lia|]. simpl. now rewrite app_nil_r.
  - now exists [ev].
Qed.

Lemma sends_get_debug_mode : forall req, sends_at_most req 0 get_debug_mode.
Proof.
  intros req w. unfold get_debug_mode.
  destruct (debug_mode w); apply grows_by_refl.
Qed.

Lemma sends_has_debug_mode : forall req, sends_at_most req 0 has_debug_mode.
Proof. intros req w. apply grows_by_refl. Qed.

Lemma sends_set_debug_mode :
  forall req b, sends_at_most req 0 (set_debug_mode b).
Proof.
  intros req b w. split; [reflexivity|]. split.
  - exists 0%nat. split; [lia|]. simpl. now rewrite app_nil_r.
  - exists []. simpl. now rewrite app_nil_r.
Qed.

Lemma sends_messages_create :
  forall req, sends_at_most req 1 (messages_create req).
Proof.
  intros req w. unfold messages_create.
  assert (G : grows_by req 1 w
                (mkWorld (debug_mode w) (api_replies w) (api_log w ++ [req])
                   (page w))).
  { split; [reflexivity|]. split.
    - exists 1%nat. split; [lia|reflexivity].
    - exists []. simpl. now rewrite app_nil_r. }
  destruct (api_replies w (length (api_log w))); exact G.
Qed.

Lemma sends_bind :
  forall (A B : Type) req a b (m : M A) (f : A -> M B),
    sends_at_most req a m ->
    (forall x, sends_at_most req b (f x)) ->
    sends_at_most req (a + b) (bind m f).
Proof.
  intros A B req a b m f Hm Hf w. unfold bind.
  specialize (Hm w). destruct (m w) as [[x|e] w1]; cbn [snd] in *.
  - eapply grows_by_trans; [exact Hm|apply Hf].
  - eapply grows_by_weaken; [|exact Hm]. lia.
Qed.

Lemma sends_try_except :
  forall (A : Type) req a b (body : M A) (handler : PyExc -> M A),
    sends_at_most req a body ->
    (forall e, sends_at_most req b (handler e)) ->
    sends_at_most req (a + b) (try_except body handler).
Proof.
  intros A req a b body handler Hb Hh w. unfold try_except.
  specialize (Hb w). destruct (body w) as [[x|e] w1]; cbn [snd] in *.
  - eapply grows_by_weaken; [|exact Hb]. lia.
  - eapply grows_by_trans; [exact Hb|apply Hh].
Qed.

Lemma sends_when :
  forall req b (m : M unit), sends_at_most req 0 m ->
                             sends_at_most req 0 (when b m).
Proof. intros req [|] m H; [exact H|apply sends_ret]. Qed.

Lemma sends_get_supplement_information :
  forall user_info,
    sends_at_most (request_of user_info) 1
      (get_supplement_information user_info).
Proof.
  intros user_info. unfold get_supplement_information.
  apply (sends_try_except _ _ 1 0).
  - apply (sends_bind _ _ _ 1 0); [apply sends_messages_create|].
    intros content.
    apply (sends_bind _ _ _ 0 0); [apply sends_get_debug_mode|].
    intros debug.
    apply (sends_bind _ _ _ 0 0); [apply sends_when, sends_st_show|].
    intros _. apply sends_lift.
  - intros e. apply (sends_bind _ _ _ 0 0); [apply sends_st_show|].
    intros _. apply sends_ret.
Qed.

Lemma sends_query_loop :
  forall n user_info acc,
    sends_at_most (request_of user_info) n (query_loop n user_info acc).
Proof.
  induction n as [|n IH]; intros user_info acc; cbn [query_loop].
  - apply sends_ret.
  - apply (sends_bind _ _ _ 1 n);
      [apply sends_get_supplement_information|].
    intros supplements.
    apply (sends_bind _ _ _ 0 n); [apply sends_get_debug_mode|].
    intros debug.
    apply (sends_bind _ _ _ 0 n); [apply sends_when, sends_st_show|].
    intros _. apply IH.
Qed.

Lemma sends_show_results :
  forall req all, sends_at_most req 0 (show_results all).
Proof.
  intros req [|a all]; unfold show_results; [apply sends_st_show|].
  apply (sends_bind _ _ _ 0 0); [apply sends_get_debug_mode|]. intros debug.
  apply (sends_bind _ _ _ 0 0); [apply sends_when, sends_st_show|]. intros _.
  apply (sends_bind _ _ _ 0 0); [apply sends_st_show|]. intros _.
  apply (sends_bind _ _ _ 0 0); [apply sends_lift|]. intros fig.
  apply (sends_bind _ _ _ 0 0); [apply sends_st_show|]. intros _.
  apply (sends_bind _ _ _ 0 0); [apply sends_st_show|]. intros _.
  apply sends_st_show.
Qed.

Lemma sends_on_button :
  forall user_info,
    sends_at_most (request_of user_info) num_queries (on_button user_info).
Proof.
  intros user_info. unfold on_button.
  apply (sends_bind _ _ _ 0 num_queries); [apply sends_st_show|]. intros _.
  apply (sends_weaken _ _ (num_queries + 0)); [lia|].
  apply (sends_bind _ _ _ num_queries 0); [apply sends_query_loop|].
  intros all.
  apply (sends_bind _ _ _ 0 0); [apply sends_show_results|]. intros _.
  apply sends_st_show.
Qed.

Lemma sends_main_tail :
  forall req debug_box,
    sends_at_most req 0
      (st_show about_title ;;
       st_show about ;;
       present <- has_debug_mode ;;
       when (negb present) (set_debug_mode false) ;;
       current <- get_debug_mode ;;
       set_debug_mode (match debug_box with Some b => b | None => current end)).
Proof.
  intros req debug_box.
  apply (sends_bind _ _ _ 0 0); [apply sends_st_show|]. intros _.
  apply (sends_bind _ _ _ 0 0); [apply sends_st_show|]. intros _.
  apply (sends_bind _ _ _ 0 0); [apply sends_has_debug_mode|]. intros present.
  apply (sends_bind _ _ _ 0 0); [apply sends_when, sends_set_debug_mode|].
  intros _.
  apply (sends_bind _ _ _ 0 0); [apply sends_get_debug_mode|]. intros current.
  apply sends_set_debug_mode.
Qed.

Lemma sends_bind_lift_Ok :
  forall (A B : Type) req b (v : A) (f : A -> M B),
    sends_at_most req b (f v) ->
    sends_at_most req b (bind (lift (Ok v)) f).
Proof. intros A B req b v f H w. unfold bind, lift. apply H. Qed.

Lemma sends_bind_lift_Raise :
  forall (A B : Type) req e (f : A -> M B),
    sends_at_most req 0 (bind (lift (Raise e)) f).
Proof. intros A B req e f w. unfold bind, lift. apply grows_by_refl. Qed.

Lemma sends_main :
  forall inp debug_box weight height,
    weight_and_height inp = Ok (weight, height) ->
    sends_at_most (request_of (user_info_of inp weight height))
      (if button inp then num_queries else 0)
      (main inp debug_box).
Proof.
  intros inp debug_box weight height Hwh. unfold main. rewrite Hwh.
  set (n := if button inp then num_queries else 0%nat).
  apply (sends_bind _ _ _ 0 n); [apply sends_st_show|]. intros _.
  apply (sends_bind _ _ _ 0 n); [apply sends_st_show|]. intros _.
  apply sends_bind_lift_Ok.
  apply (sends_weaken _ _ (n + 0)); [lia|].
  apply (sends_bind _ _ _ n 0); [|intros _; apply sends_main_tail].
  unfold n. destruct (button inp); [apply sends_on_button|apply sends_ret].
Qed.

Lemma sends_main_no_profile :
  forall inp debug_box e req,
    weight_and_height inp = Raise e ->
    sends_at_most req 0 (main inp debug_box).
Proof.
  intros inp debug_box e req Hwh. unfold main. rewrite Hwh.
  apply (sends_bind _ _ _ 0 0); [apply sends_st_show|]. intros _.
  apply (sends_bind _ _ _ 0 0); [apply sends_st_show|]. intros _.
  apply sends_bind_lift_Raise.
Qed.

(** X11. Every run of the script, whatever the inputs, the session and the
    replies, and whether it ends or raises: it sends at most 5
    requests, none without a press of the button, each of them the
    request for the profile; it leaves the earlier requests and the
    earlier page in place. *)
Theorem every_run_sends_at_most_five_requests :
  forall inp debug_box w,
    exists sent shown,
      api_log (snd (main inp debug_box w)) = api_log w ++ sent
      /\ page (snd (main inp debug_box w)) = page w ++ shown
      /\ api_replies (snd (main inp debug_box w)) = api_replies w
      /\ (length sent <= 5)%nat
      /\ (button inp = false -> sent = [])
      /\ (forall weight height r,
            weight_and_height inp = Ok (weight, height) ->
            In r sent -> r = request_of (user_info_of inp weight height)).
Proof.
  intros inp debug_box w.
  destruct (weight_and_height inp) as [[weight height]|e] eqn:Hwh.
  - destruct (sends_main inp debug_box weight height Hwh w)
      as (R & (k & Hk & L) & (evs & P)).
    exists (repeat (request_of (user_info_of inp weight height)) k), evs.
    split; [exact L|]. split; [exact P|]. split; [exact R|].
    rewrite repeat_length. split; [|split].
    + unfold num_queries in Hk. destruct (button inp); lia.
    + intros Hb. rewrite Hb in Hk. now replace k with 0%nat by lia.
    + intros wt ht r Heq Hin. inversion Heq; subst.
      now apply repeat_spec in Hin.
  - destruct (sends_main_no_profile inp debug_box e
                (request_of []) Hwh w) as (R & (k & Hk & L) & (evs & P)).
    exists [], evs. replace k with 0%nat in L by lia.
    split; [exact L|]. split; [exact P|]. split; [exact R|].
    split; [simpl; lia|]. split; [reflexivity|].
    intros wt ht r Heq. discriminate.
Qed.

(** ** The session flag *)

Lemma keeps_ret : forall (A : Type) (a : A), keeps_session (ret a).
Proof. intros A a w. reflexivity. Qed.

Lemma keeps_lift : forall (A : Type) (r : Result A), keeps_session (lift r).
Proof. intros A r w. reflexivity. Qed.

Lemma keeps_st_show : forall ev, keeps_session (st_show ev).
Proof. intros ev w. reflexivity. Qed.

Lemma keeps_get_debug_mode : keeps_session get_debug_mode.
Proof.
  intros w. unfold get_debug_mode.
  destruct (debug_mode w) eqn:E; cbn [snd]; exact E.
Qed.

Lemma keeps_messages_create : forall req, keeps_session (messages_create req).
Proof.
  intros req w. unfold messages_create.
  now destruct (api_replies w (length (api_log w))).
Qed.

Lemma keeps_bind :
  forall (A B : Type) (m : M A) (f : A -> M B),
    keeps_session m -> (forall x, keeps_session (f x)) ->
    keeps_session (bind m f).
Proof.
  intros A B m f Hm Hf w. unfold bind. specialize (Hm w).
  destruct (m w) as [[x|e] w1]; cbn [snd] in *; [|exact Hm].
  now rewrite Hf.
Qed.

Lemma keeps_try_except :
  forall (A : Type) (body : M A) (handler : PyExc -> M A),
    keeps_session body -> (forall e, keeps_session (handler e)) ->
    keeps_session (try_except body handler).
Proof.
  intros A body handler Hb Hh w. unfold try_except. specialize (Hb w).
  destruct (body w) as [[x|e] w1]; cbn [snd] in *; [exact Hb|].
  now rewrite Hh.
Qed.

Lemma keeps_when :
  forall b (m : M unit), keeps_session m -> keeps_session (when b m).
Proof. intros [|] m H; [exact H|apply keeps_ret]. Qed.

Lemma keeps_get_supplement_information :
  forall user_info, keeps_session (get_supplement_information user_info).
Proof.
  intros user_info. unfold get_supplement_information.
  apply keeps_try_except.
  - apply keeps_bind; [apply keeps_messages_create|]. intros content.
    apply keeps_bind; [apply keeps_get_debug_mode|]. intros debug.
    apply keeps_bind; [apply keeps_when, keeps_st_show|]. intros _.
    apply keeps_lift.
  - intros e. apply keeps_bind; [apply keeps_st_show|]. intros _.
    apply keeps_ret.
Qed.

Lemma keeps_query_loop :
  forall n user_info acc, keeps_session (query_loop n user_info acc).
Proof.
  induction n as [|n IH]; intros user_info acc; cbn [query_loop].
  - apply keeps_ret.
  - apply keeps_bind; [apply keeps_get_supplement_information|].
    intros supplements.
    apply keeps_bind; [apply keeps_get_debug_mode|]. intros debug.
    apply keeps_bind; [apply keeps_when, keeps_st_show|]. intros _.
    apply IH.
Qed.

Lemma keeps_show_results : forall all, keeps_session (show_results all).
Proof.
  intros [|a all]; unfold show_results; [apply keeps_st_show|].
  apply keeps_bind; [apply keeps_get_debug_mode|]. intros debug.
  apply keeps_bind; [apply keeps_when, keeps_st_show|]. intros _.
  apply keeps_bind; [apply keeps_st_show|]. intros _.
  apply keeps_bind; [apply keeps_lift|]. intros fig.
  apply keeps_bind; [apply keeps_st_show|]. intros _.
  apply keeps_bind; [apply keeps_st_show|]. intros _.
  apply keeps_st_show.
Qed.

Lemma keeps_on_button : forall user_info, keeps_session (on_button user_info).
Proof.
  intros user_info. unfold on_button.
  apply keeps_bind; [apply keeps_st_show|]. intros _.
  apply keeps_bind; [apply keeps_query_loop|]. intros all.
  apply keeps_bind; [apply keeps_show_results|]. intros _.
  apply keeps_st_show.
Qed.

(** X12. The session flag is written only by a run that completes, at its
    end, with what the Debug Mode checkbox returns; a run that raises
    leaves it as it was, and a query never writes it. *)
Theorem session_flag_written_at_end_of_run :
  (forall inp debug_box w,
     match fst (main inp debug_box w) with
     | Ok _ => debug_mode (snd (main inp debug_box w))
               = Some (flag_after debug_box w)
     | Raise _ => debug_mode (snd (main inp debug_box w)) = debug_mode w
     end)
  /\ (forall user_info w,
        debug_mode (snd (get_supplement_information user_info w))
        = debug_mode w).
Proof.
  split; [|intros user_info w; apply keeps_get_supplement_information].
  intros inp debug_box w. unfold flag_after.
  remember (main inp debug_box w) as r eqn:Hr.
  unfold main, bind, st_show, lift in Hr.
  cbn [debug_mode api_replies api_log page] in Hr.
  destruct (weight_and_height inp) as [[weight height]|e];
    [|subst r; reflexivity].
  match type of Hr with
  | context [(if button inp then _ else _) ?w0] => set (w2 := w0) in Hr
  end.
  assert (K : keeps_session
                (if button inp then on_button (user_info_of inp weight height)
                 else ret tt)).
  { destruct (button inp); [apply keeps_on_button|apply keeps_ret]. }
  specialize (K w2). change (debug_mode w2) with (debug_mode w) in K.
  unfold bind in K.
  destruct ((if button inp then on_button (user_info_of inp weight height)
             else ret tt) w2) as [[u|e] w3]; cbn [fst snd] in *;
    [|subst r; exact K].
  unfold has_debug_mode, when, get_debug_mode, set_debug_mode, ret in Hr.
  cbn [debug_mode] in Hr. rewrite K in Hr.
  destruct (debug_mode w) as [d|]; cbn [negb fst snd debug_mode] in Hr;
    subst r; destruct debug_box; reflexivity.
Qed.

(** ** Queries and presses at the edges *)

Lemma get_supplement_information_unset_run :
  forall user_info w,
    debug_mode w = None ->
    get_supplement_information user_info w
    = (Ok [],
       mkWorld None (api_replies w) (api_log w ++ [request_of user_info])
         (page w
          ++ [fetch_error (unset_error (api_replies w (length (api_log w))))])).
Proof.
  intros user_info [dm replies log pg] Hd. simpl in Hd. subst dm.
  unfold get_supplement_information, try_except, bind, messages_create,
    get_debug_mode, when, st_show, lift, ret, request_of.
  cbn [debug_mode api_replies api_log page].
  destruct (replies (length log)) as [content|e]; reflexivity.
Qed.

(** X13. A query sends exactly one request, in every world and whatever
    comes back, shows at most two lines and returns a list; while
    [debug_mode] is not set it returns the empty list and shows one
    error line, the fetch error, even for a reply that parses. *)
Theorem query_sends_one_request :
  forall user_info w,
    exists names shown,
      get_supplement_information user_info w
      = (Ok names,
         mkWorld (debug_mode w) (api_replies w)
           (api_log w ++ [request_of user_info]) (page w ++ shown))
      /\ (length shown <= 2)%nat
      /\ (debug_mode w = None ->
          names = []
          /\ exists detail,
               shown
               = [StError
                    (py "An error occurred while fetching supplement information: "
                     ++ detail)]).
Proof.
  intros user_info w. destruct (debug_mode w) as [d|] eqn:Hd.
  - exists (reply_supplements (api_replies w (length (api_log w)))).
    exists (fetch_events d (api_replies w (length (api_log w)))).
    split; [exact (get_supplement_information_run user_info w d Hd)|].
    split; [|discriminate].
    unfold fetch_events.
    destruct (api_replies w (length (api_log w))) as [content|e];
      [|simpl; lia].
    destruct d, (parse_supplement_list content); simpl; lia.
  - exists [].
    exists [fetch_error (unset_error (api_replies w (length (api_log w))))].
    split; [|split; [simpl; lia|intros _; split; [reflexivity|]]].
    + rewrite (get_supplement_information_unset_run user_info w Hd).
      reflexivity.
    + eexists. reflexivity.
Qed.

(** X14. A press of the button while [debug_mode] is not set: the first
    query is made and swallows the missing key, then reading the flag
    in main raises AttributeError; one request was sent, the page shows
    the fetch error and no chart, and the flag stays unset. *)
Theorem press_without_session_flag_raises :
  forall inp debug_box w,
    debug_mode w = None ->
    button inp = true ->
    valid_form inp ->
    exists weight height e w' detail,
      weight_and_height inp = Ok (weight, height)
      /\ main inp debug_box w = (Raise e, w')
      /\ exc_class e = AttributeError
      /\ debug_mode w' = None
      /\ api_replies w' = api_replies w
      /\ api_log w'
         = api_log w ++ [request_of (user_info_of inp weight height)]
      /\ page w'
         = page w
           ++ [title; intro; spinner;
               StError
                 (py "An error occurred while fetching supplement information: "
                  ++ detail)].
Proof.
  intros inp debug_box [dm replies log pg] Hd Hb Hv. simpl in Hd. subst dm.
  destruct (weight_and_height_total inp Hv) as (weight & height & Hwh).
  exists weight, height, (missing_attribute (py "debug_mode")).
  eexists. exists (exc_str (unset_error (replies (length log)))).
  split; [exact Hwh|]. split.
  - unfold main, on_button, bind. rewrite Hwh, Hb.
    unfold st_show at 1 2 3, lift at 1.
    cbn [debug_mode api_replies api_log page num_queries query_loop].
    unfold bind at 1.
    rewrite (get_supplement_information_unset_run
               (user_info_of inp weight height)
               (mkWorld None replies log
                  (((pg ++ [title]) ++ [intro]) ++ [spinner])) eq_refl).
    cbn [debug_mode api_replies api_log page].
    unfold get_debug_mode at 1. cbn [debug_mode]. reflexivity.
  - cbn [debug_mode api_replies api_log page].
    split; [reflexivity|]. split; [reflexivity|]. split; [reflexivity|].
    split; [reflexivity|].
    repeat rewrite <- app_assoc. reflexivity.
Qed.

Lemma press_without_session_flag_raises_witness :
  exists weight height e w' detail,
    weight_and_height imperial_form = Ok (weight, height)
    /\ main imperial_form None fresh_world = (Raise e, w')
    /\ exc_class e = AttributeError
    /\ debug_mode w' = None
    /\ api_replies w' = api_replies fresh_world
    /\ api_log w'
       = api_log fresh_world
         ++ [request_of (user_info_of imperial_form weight height)]
    /\ page w'
       = page fresh_world
         ++ [title; intro; spinner;
             StError
               (py "An error occurred while fetching supplement information: "
                ++ detail)].
Proof.
  apply (press_without_session_flag_raises imperial_form None fresh_world).
  - reflexivity.
  - reflexivity.
  - unfold valid_form; simpl; lia.
Defined.

(** X15. A run without a press of the button sends nothing to the API: it
    shows the title, the introduction and the sidebar, and sets the
    session flag. *)
Theorem run_without_press_calls_no_api :
  forall inp debug_box w,
    button inp = false ->
    valid_form inp ->
    main inp debug_box w
    = (Ok tt,
       mkWorld (Some (flag_after debug_box w)) (api_replies w) (api_log w)
         (page w ++ [title; intro; about_title; about])).
Proof.
  intros inp debug_box w Hb Hv.
  destruct (weight_and_height_total inp Hv) as (weight & height & Hwh).
  exact (main_idle_run inp debug_box w weight height Hb Hwh).
Qed.

Lemma run_without_press_calls_no_api_witness :
  main idle_form None fresh_world
  = (Ok tt,
     mkWorld (Some (flag_after None fresh_world)) (api_replies fresh_world)
       (api_log fresh_world)
       (page fresh_world ++ [title; intro; about_title; about])).
Proof.
  apply (run_without_press_calls_no_api idle_form None fresh_world).
  - reflexivity.
  - unfold valid_form; simpl; lia.
Defined.

Lemma loop_events_debug_off :
  forall os, filter is_debug_line (loop_events false os) = [].
Proof.
  induction os as [|o os IH]; [reflexivity|].
  unfold loop_events in *. cbn [map concat]. rewrite filter_app, IH, app_nil_r.
  unfold turn_events, fetch_events.
  destruct o as [content|e]; [|reflexivity].
  destruct (parse_supplement_list content); reflexivity.
Qed.

(** X16. With debug mode off, a press shows nothing of the raw replies, the
    per-query lists or the counts. *)
Theorem debug_off_shows_no_debug_line :
  forall inp debug_box w,
    debug_mode w = Some false ->
    button inp = true ->
    valid_form inp ->
    list_size_ok (collected (next_replies w num_queries)) ->
    exists w' shown,
      main inp debug_box w = (Ok tt, w')
      /\ page w' = page w ++ shown
      /\ filter is_debug_line shown = [].
Proof.
  intros inp debug_box w Hd Hb Hv Hl.
  destruct (weight_and_height_total inp Hv) as (weight & height & Hwh).
  eexists. exists (press_events false (next_replies w num_queries)).
  split;
    [exact (main_press_run inp debug_box w false weight height Hd Hb Hwh Hl)|].
  split; [reflexivity|].
  unfold press_events. rewrite !filter_app, loop_events_debug_off.
  unfold results_events.
  destruct (collected (next_replies w num_queries)) as [|a all];
    [reflexivity|].
  destruct (create_supplement_chart _ _); reflexivity.
Qed.

Lemma debug_off_shows_no_debug_line_witness :
  exists w' shown,
    main imperial_form None doubled_world = (Ok tt, w')
    /\ page w' = page doubled_world ++ shown
    /\ filter is_debug_line shown = [].
Proof.
  apply (debug_off_shows_no_debug_line imperial_form None doubled_world).
  - reflexivity.
  - reflexivity.
  - unfold valid_form; simpl; lia.
  - vm_compute. reflexivity.
Defined.

Lemma count_occ_concat_NoDup :
  forall (lists : list (list pystr)) name,
    Forall (@NoDup pystr) lists ->
    (count_occ pystr_eq_dec (concat lists) name <= length lists)%nat.
Proof.
  induction lists as [|l lists IH]; intros name H; simpl; [lia|].
  inversion H as [|? ? Hl Hr]; subst.
  rewrite count_occ_app.
  pose proof (proj1 (NoDup_count_occ pystr_eq_dec l) Hl name).
  specialize (IH name Hr). lia.
Qed.

(** X17. When no reply names a supplement twice, every bar of the chart a
    press shows is 20 long per query that named the supplement: 20,
    40, 60, 80 or 100. *)
Theorem bars_are_twenty_per_query :
  forall inp debug_box w d,
    debug_mode w = Some d ->
    button inp = true ->
    valid_form inp ->
    list_size_ok (collected (next_replies w num_queries)) ->
    Forall (@NoDup pystr)
      (map reply_supplements (next_replies w num_queries)) ->
    exists w' shown,
      main inp debug_box w = (Ok tt, w')
      /\ page w' = page w ++ shown
      /\ forall fig s p,
           In (StPlotlyChart fig) shown -> In (s, p) (bars fig) ->
           exists k, 1 <= k <= 5 /\ p = 20 * k
                     /\ k = Z.of_nat
                              (count_occ pystr_eq_dec
                                 (collected (next_replies w num_queries)) s).
Proof.
  intros inp debug_box w d Hd Hb Hv Hl Hnd.
  destruct (weight_and_height_total inp Hv) as (weight & height & Hwh).
  eexists. exists (press_events d (next_replies w num_queries)).
  split;
    [exact (main_press_run inp debug_box w d weight height Hd Hb Hwh Hl)|].
  split; [reflexivity|].
  intros fig s p Hfig Hin.
  apply In_chart_filter in Hfig. rewrite press_events_chart in Hfig.
  apply shown_chart_In in Hfig. destruct Hfig as [_ Hfig].
  destruct (chart_bars_of_counts _ _ fig Hfig s p Hin) as (c & Hc & Hp).
  set (all := collected (next_replies w num_queries)) in *.
  pose proof (counter_get_In (Counter all) s c (well_keyed_Counter all) Hc)
    as Hg.
  rewrite counter_get_Counter in Hg.
  assert (Hs : In s all).
  { assert (Hk : In s (keys (Counter all)))
      by (apply in_map_iff; now exists (s, c)).
    unfold Counter in Hk. rewrite keys_fold in Hk. simpl in Hk. tauto. }
  apply (count_occ_In pystr_eq_dec) in Hs.
  assert (Hlen : length (map reply_supplements
                           (next_replies w num_queries)) = 5%nat).
  { unfold next_replies. rewrite !length_map, length_seq. reflexivity. }
  pose proof (count_occ_concat_NoDup _ s Hnd) as Hle.
  rewrite Hlen in Hle.
  change (concat (map reply_supplements (next_replies w num_queries)))
    with all in Hle.
  exists c. split; [lia|]. split; [|now symmetry].
  change (Z.of_nat num_queries) with 5 in Hp.
  assert (Ht : twenty_per_mention c = true).
  { apply (all_below_spec twenty_per_mention 10001
             twenty_per_mention_checked). lia. }
  unfold twenty_per_mention in Ht. rewrite Hp in Ht.
  now apply Z.eqb_eq in Ht.
Qed.

Lemma bars_are_twenty_per_query_witness :
  exists w' shown,
    main imperial_form None example_world = (Ok tt, w')
    /\ page w' = page example_world ++ shown
    /\ forall fig s p,
         In (StPlotlyChart fig) shown -> In (s, p) (bars fig) ->
         exists k, 1 <= k <= 5 /\ p = 20 * k
                   /\ k = Z.of_nat
                            (count_occ pystr_eq_dec
                               (collected
                                  (next_replies example_world num_queries)) s).
Proof.
  apply (bars_are_twenty_per_query imperial_form None example_world true).
  - reflexivity.
  - reflexivity.
  - unfold valid_form; simpl; lia.
  - vm_compute. reflexivity.
  - vm_compute.
    repeat (constructor;
            try (simpl; intros H;
                 repeat (destruct H as [H|H]; try discriminate H);
                 exact H)).
Defined.
